(** * Waitly SDK: a shallow embedding of [src/src/index.ts]

    The client class [WaitlyClient] is modelled as a resolved configuration
    plus an explicit world state (the [abortControllers] map, the armed
    timeouts, the controllers aborted so far, and a trace of the calls to
    [fetch] and to [delay]).  The transport is a mock: a function from the
    attempt index to what [fetch] does on that attempt. *)

From Stdlib Require Import QArith Qround ZArith String Ascii List Bool Lia Lqa.
From stdpp Require Import gmap strings list.

Import ListNotations.
Open Scope string_scope.

(* ------------------------------------------------------------------ *)
(** ** JavaScript values *)

(** A JS number: a finite value (as a rational) or [NaN]. *)
Inductive jsnum :=
| Num (q : Q)
| NaN.

Local Set Warnings "-register-all".

(** JS values as the code handles them.  Objects are property lists in
    insertion order with distinct keys. *)
Inductive jsval :=
| JUndefined
| JNull
| JBool (b : bool)
| JNumber (n : jsnum)
| JString (s : string)
| JBigInt (z : Z)
| JObject (props : list (string * jsval)).

Definition jnum_Z (z : Z) : jsval := JNumber (Num (inject_Z z)).

(** Truthiness, as used by [!x] and [x || d]. *)
Definition truthy (v : jsval) : bool :=
  match v with
  | JUndefined | JNull => false
  | JBool b => b
  | JNumber (Num q) => negb (Qeq_bool q 0)
  | JNumber NaN => false
  | JString s => negb (String.eqb s "")
  | JBigInt z => negb (Z.eqb z 0)
  | JObject _ => true
  end.

(** [v || d] *)
Definition js_or (v d : jsval) : jsval := if truthy v then v else d.

(** [v === "lit"] and [v === n] against literals. *)
Definition js_eq_str (v : jsval) (s : string) : bool :=
  match v with JString s' => String.eqb s' s | _ => false end.

Definition js_eq_num (v : jsval) (q : Q) : bool :=
  match v with JNumber (Num q') => Qeq_bool q' q | _ => false end.

Fixpoint obj_lookup (k : string) (ps : list (string * jsval)) : option jsval :=
  match ps with
  | [] => None
  | (k', x) :: ps' => if String.eqb k k' then Some x else obj_lookup k ps'
  end.

(** Property read [v.k]: [None] stands for the TypeError thrown when [v]
    is [undefined] or [null].  The properties read by the code
    ([statusCode], [message], [name], [details], [exists], ...) are not
    properties of primitive values, which read as [undefined]. *)
Definition get (v : jsval) (k : string) : option jsval :=
  match v with
  | JUndefined | JNull => None
  | JObject ps => Some (match obj_lookup k ps with Some x => x | None => JUndefined end)
  | _ => Some JUndefined
  end.

(** Assignment of a property: an existing key keeps its position. *)
Fixpoint obj_set (k : string) (x : jsval) (ps : list (string * jsval))
  : list (string * jsval) :=
  match ps with
  | [] => [(k, x)]
  | (k', y) :: ps' =>
      if String.eqb k k' then (k', x) :: ps' else (k', y) :: obj_set k x ps'
  end.

(** Decimal rendering of an integer, as template literals print it. *)
Fixpoint digits_of (fuel : nat) (n : Z) (acc : string) : string :=
  match fuel with
  | O => acc
  | S f =>
      let acc' := String (ascii_of_nat (48 + Z.to_nat (Z.modulo n 10))) acc in
      if Z.ltb n 10 then acc' else digits_of f (Z.div n 10) acc'
  end.

Definition z_to_dec (z : Z) : string :=
  if Z.ltb z 0
  then "-" ++ digits_of (S (Z.to_nat (Z.log2 (- z)))) (- z) ""
  else digits_of (S (Z.to_nat (Z.log2 z))) z "".

(** Own enumerable properties copied by [{...v}]: those of an object, the
    indexed characters of a string, nothing for other primitives. *)
Fixpoint string_props (i : Z) (s : string) : list (string * jsval) :=
  match s with
  | EmptyString => []
  | String c s' => (z_to_dec i, JString (String c EmptyString)) :: string_props (i + 1) s'
  end.

Definition spread_props (v : jsval) : list (string * jsval) :=
  match v with
  | JObject ps => ps
  | JString s => string_props 0 s
  | _ => []
  end.

(** [{ ...base, ...v }] with [base] given as a property list. *)
Definition obj_spread (base : list (string * jsval)) (v : jsval) : list (string * jsval) :=
  fold_left (fun acc kx => obj_set (fst kx) (snd kx) acc) (spread_props v) base.

(** [new Error(msg)] (and the TypeErrors raised by the runtime), seen
    through the properties the code reads. *)
Definition js_error (name msg : string) : jsval :=
  JObject [("name", JString name); ("message", JString msg)].

(* ------------------------------------------------------------------ *)
(** ** Strings: Latin-1 code units

    A JS string is a sequence of UTF-16 code units.  A [string] here holds
    code units U+0000 to U+00FF, one [ascii] each (its code is the code
    unit); the module [Utf16] below runs the email check on arbitrary code
    units. *)

(** [\s] of a JS regular expression (WhiteSpace and LineTerminator, the
    set [trim] removes too), on U+0000 to U+00FF: tab, LF, VT, FF, CR,
    space and U+00A0.  U+0085 is not in it. *)
Definition is_js_space (c : ascii) : bool :=
  let n := nat_of_ascii c in
  (n =? 32)%nat || (n =? 9)%nat || (n =? 10)%nat || (n =? 11)%nat
  || (n =? 12)%nat || (n =? 13)%nat || (n =? 160)%nat.

(** Lower-case mapping of U+0000 to U+00FF: A-Z, and U+00C0 to U+00DE
    except U+00D7, move up by 0x20. *)
Definition ascii_lower (c : ascii) : ascii :=
  let n := nat_of_ascii c in
  if ((65 <=? n)%nat && (n <=? 90)%nat)
     || ((192 <=? n)%nat && (n <=? 222)%nat && negb (n =? 215)%nat)
  then ascii_of_nat (n + 32) else c.

(** [String.prototype.toLowerCase] *)
Fixpoint toLowerCase (s : string) : string :=
  match s with
  | EmptyString => EmptyString
  | String c s' => String (ascii_lower c) (toLowerCase s')
  end.

Fixpoint trim_start (s : string) : string :=
  match s with
  | String c s' => if is_js_space c then trim_start s' else s
  | EmptyString => EmptyString
  end.

Definition string_rev (s : string) : string :=
  string_of_list_ascii (rev (list_ascii_of_string s)).

(** [String.prototype.trim] *)
Definition trim (s : string) : string :=
  string_rev (trim_start (string_rev (trim_start s))).

(* ------------------------------------------------------------------ *)
(** ** Regular expressions: [RegExp.prototype.test]

    A pattern is a sequence of atoms, each matched once or one-or-more
    times ([+], greedy), optionally anchored by [^] and [$] (no [m] flag).
    Matching backtracks with a continuation, as the JS engine does. *)

Inductive class_item :=
| CSpace                 (* \s *)
| CChar (c : ascii).

Inductive atom :=
| ALit (c : ascii)                       (* a literal, e.g. @ or \. *)
| ANegClass (items : list class_item).   (* [^ ...] *)

Inductive quant := One | Plus.

Record regex := mkRegex {
  anchored_start : bool;
  pieces : list (atom * quant);
  anchored_end : bool
}.

Definition item_matches (i : class_item) (c : ascii) : bool :=
  match i with
  | CSpace => is_js_space c
  | CChar d => Ascii.eqb c d
  end.

Definition atom_matches (a : atom) (c : ascii) : bool :=
  match a with
  | ALit d => Ascii.eqb c d
  | ANegClass items => negb (existsb (fun i => item_matches i c) items)
  end.

Fixpoint plus_match (a : atom) (s : list ascii) (k : list ascii -> bool) : bool :=
  match s with
  | [] => false
  | c :: s' => atom_matches a c && (plus_match a s' k || k s')
  end.

Fixpoint match_pieces (ps : list (atom * quant)) (s : list ascii)
    (k : list ascii -> bool) : bool :=
  match ps with
  | [] => k s
  | (a, One) :: ps' =>
      match s with
      | [] => false
      | c :: s' => atom_matches a c && match_pieces ps' s' k
      end
  | (a, Plus) :: ps' => plus_match a s (fun r => match_pieces ps' r k)
  end.

Fixpoint suffixes (s : list ascii) : list (list ascii) :=
  match s with
  | [] => [[]]
  | _ :: s' => s :: suffixes s'
  end.

Definition regex_test (r : regex) (str : string) : bool :=
  let s := list_ascii_of_string str in
  let k := fun rest : list ascii =>
             if anchored_end r then match rest with [] => true | _ => false end
             else true in
  if anchored_start r then match_pieces (pieces r) s k
  else existsb (fun t => match_pieces (pieces r) t k) (suffixes s).

(** [/^[^\s@]+@[^\s@]+\.[^\s@]+$/] *)
Definition emailRegex : regex :=
  mkRegex true
    [ (ANegClass [CSpace; CChar "@"], Plus);
      (ALit "@", One);
      (ANegClass [CSpace; CChar "@"], Plus);
      (ALit ".", One);
      (ANegClass [CSpace; CChar "@"], Plus) ]
    true.

(** [isValidEmail] *)
Definition isValidEmail (email : string) : bool := regex_test emailRegex email.

Example isValidEmail_ok : isValidEmail "user@example.com" = true.
Proof. reflexivity. Qed.
Example isValidEmail_space : isValidEmail "us er@example.com" = false.
Proof. reflexivity. Qed.
Example isValidEmail_nodot : isValidEmail "user@example" = false.
Proof. reflexivity. Qed.

(** *** The same check on UTF-16 code units

    Without the [u] flag the engine reads a string as its UTF-16 code units.
    These are the atoms and the matcher above with a code unit ([N], below
    2^16) for a character; [isValidEmail_units] shows the two agree on the
    strings of the model. *)
Module Utf16.

(** [\s]: WhiteSpace (U+0009, U+000B, U+000C, U+0020, U+00A0, U+FEFF and
    the Zs category: U+1680, U+2000 to U+200A, U+202F, U+205F, U+3000) and
    LineTerminator (U+000A, U+000D, U+2028, U+2029). *)
Definition is_js_space (u : N) : bool :=
  ((9 <=? u)%N && (u <=? 13)%N) || (u =? 32)%N || (u =? 160)%N || (u =? 5760)%N
  || ((8192 <=? u)%N && (u <=? 8202)%N) || (u =? 8232)%N || (u =? 8233)%N
  || (u =? 8239)%N || (u =? 8287)%N || (u =? 12288)%N || (u =? 65279)%N.

Inductive class_item :=
| CSpace
| CChar (c : N).

Inductive atom :=
| ALit (c : N)
| ANegClass (items : list class_item).

Record regex := mkRegex {
  anchored_start : bool;
  pieces : list (atom * quant);
  anchored_end : bool
}.

Definition item_matches (i : class_item) (c : N) : bool :=
  match i with
  | CSpace => is_js_space c
  | CChar d => N.eqb c d
  end.

Definition atom_matches (a : atom) (c : N) : bool :=
  match a with
  | ALit d => N.eqb c d
  | ANegClass items => negb (existsb (fun i => item_matches i c) items)
  end.

Fixpoint plus_match (a : atom) (s : list N) (k : list N -> bool) : bool :=
  match s with
  | [] => false
  | c :: s' => atom_matches a c && (plus_match a s' k || k s')
  end.

Fixpoint match_pieces (ps : list (atom * quant)) (s : list N) (k : list N -> bool) : bool :=
  match ps with
  | [] => k s
  | (a, One) :: ps' =>
      match s with
      | [] => false
      | c :: s' => atom_matches a c && match_pieces ps' s' k
      end
  | (a, Plus) :: ps' => plus_match a s (fun r => match_pieces ps' r k)
  end.

Fixpoint suffixes (s : list N) : list (list N) :=
  match s with
  | [] => [[]]
  | _ :: s' => s :: suffixes s'
  end.

Definition regex_test (r : regex) (s : list N) : bool :=
  let k := fun rest : list N =>
             if anchored_end r then match rest with [] => true | _ => false end
             else true in
  if anchored_start r then match_pieces (pieces r) s k
  else existsb (fun t => match_pieces (pieces r) t k) (suffixes s).

(** [/^[^\s@]+@[^\s@]+\.[^\s@]+$/]; ['@'] is 0x40, ['.'] is 0x2E. *)
Definition emailRegex : regex :=
  mkRegex true
    [ (ANegClass [CSpace; CChar 64], Plus);
      (ALit 64, One);
      (ANegClass [CSpace; CChar 64], Plus);
      (ALit 46, One);
      (ANegClass [CSpace; CChar 64], Plus) ]
    true.

Definition isValidEmail (email : list N) : bool := regex_test emailRegex email.

End Utf16.

(** The code units of a string of the model. *)
Definition unit_of (c : ascii) : N := N.of_nat (nat_of_ascii c).

Definition units (s : string) : list N := map unit_of (list_ascii_of_string s).

(** [JSON.stringify] throws a TypeError on a BigInt anywhere in the value;
    the other values modelled here serialise. *)
Fixpoint json_serialisable (v : jsval) : bool :=
  match v with
  | JBigInt _ => false
  | JObject ps =>
      (fix go (ps : list (string * jsval)) : bool :=
         match ps with
         | [] => true
         | (_, x) :: ps' => json_serialisable x && go ps'
         end) ps
  | _ => true
  end.

(* ------------------------------------------------------------------ *)
(** ** Configuration ([WaitlyConfig], [Required<WaitlyConfig>]) *)

Module WaitlyConfig.
(** The constructor's argument; [None] is an absent field. *)
Record t := mk {
  waitlistId : option string;
  apiKey : option string;
  apiUrl : option string;
  timeout : option jsnum;
  retryAttempts : option jsnum;
  headers : option (list (string * string))
}.
End WaitlyConfig.

(** [Required<WaitlyConfig>]: the resolved configuration. *)
Record RequiredConfig := mkRequired {
  waitlistId : string;
  apiKey : string;
  apiUrl : string;
  timeout : jsnum;
  retryAttempts : jsnum;
  headers : list (string * string)
}.

Definition num_truthy (n : jsnum) : bool := truthy (JNumber n).

(** [!config.f] for an optional string field. *)
Definition opt_str_falsy (o : option string) : bool :=
  match o with Some s => String.eqb s "" | None => true end.

(** [config.f || d] for optional string and number fields. *)
Definition str_or (o : option string) (d : string) : string :=
  match o with Some s => if String.eqb s "" then d else s | None => d end.

Definition num_or (o : option jsnum) (d : jsnum) : jsnum :=
  match o with Some n => if num_truthy n then n else d | None => d end.

Inductive ctor_outcome :=
| Constructed (cfg : RequiredConfig)
| CtorThrows (err : jsval).

(** [constructor(config)] of [WaitlyClient]: the checks, then the
    resolved configuration (the new instance starts with an empty
    [abortControllers] map). *)
Definition new_WaitlyClient (c : WaitlyConfig.t) : ctor_outcome :=
  if opt_str_falsy (WaitlyConfig.waitlistId c)
  then CtorThrows (js_error "Error" "waitlistId is required")
  else if opt_str_falsy (WaitlyConfig.apiKey c)
  then CtorThrows (js_error "Error" "apiKey is required")
  else Constructed {|
    waitlistId := str_or (WaitlyConfig.waitlistId c) "";
    apiKey := str_or (WaitlyConfig.apiKey c) "";
    apiUrl := str_or (WaitlyConfig.apiUrl c) "https://www.gowaitly.com";
    timeout := num_or (WaitlyConfig.timeout c) (Num 10000);
    retryAttempts := num_or (WaitlyConfig.retryAttempts c) (Num 3);
    headers := match WaitlyConfig.headers c with Some h => h | None => [] end
  |}.

(* ------------------------------------------------------------------ *)
(** ** World state: the [abortControllers] map, timers, trace *)

(** The [RequestInit] handed to [fetch].  [ri_body] is the value that
    [JSON.stringify] serialised, [ri_signal] the controller of the call. *)
Record RequestInit := mkInit {
  ri_method : string;
  ri_headers : list (string * string);
  ri_body : option jsval;
  ri_signal : nat
}.

(** [EDelay ms] is the call [this.delay(ms)], that is
    [setTimeout(resolve, ms)] with the [ms] the code computes; the time the
    host then waits is [node_timeout_ms ms] or [browser_timeout_ms ms]. *)
Inductive event :=
| EFetch (attempt : nat) (url : string) (init : RequestInit)
| EDelay (ms : Z).

(** [abortControllers] maps request ids to controllers (numbered by
    creation); [armed] lists the controllers whose timeout is still set;
    [aborted] the controllers on which [abort()] was called. *)
Record St := mkSt {
  abortControllers : gmap string nat;
  next_ctrl : nat;
  armed : list nat;
  aborted : list nat;
  trace : list event
}.

Definition emit (e : event) (s : St) : St :=
  mkSt (abortControllers s) (next_ctrl s) (armed s) (aborted s) (trace s ++ [e]).

(** [cancelAllRequests] *)
Definition cancelAllRequests (s : St) : St :=
  mkSt ∅ (next_ctrl s) (armed s)
       (aborted s ++ map snd (map_to_list (abortControllers s))) (trace s).

(* ------------------------------------------------------------------ *)
(** ** The transport *)

Inductive js_result :=
| Resolved (v : jsval)
| Rejected (e : jsval).

(** What [fetch] does on one attempt: resolve with a response (status,
    status text, and what the first [response.json()] gives) or reject
    (a network TypeError, or an AbortError once the signal is aborted). *)
Inductive fetch_outcome :=
| FResolve (status : Z) (statusText : string) (body : js_result)
| FReject (err : jsval).

Definition transport := nat -> fetch_outcome.

(** [response.ok] *)
Definition response_ok (status : Z) : bool := (200 <=? status)%Z && (status <=? 299)%Z.

(** A second [response.json()] on a consumed body rejects (WHATWG fetch). *)
Definition body_used_error : jsval := js_error "TypeError" "Body is unusable".

(** [a < n] and [a < n - 1] for the loop counter [a] and a JS number [n]. *)
Definition lt_num (a : nat) (n : jsnum) : bool :=
  match n with
  | Num q => negb (Qle_bool q (inject_Z (Z.of_nat a)))
  | NaN => false
  end.

Definition lt_num_m1 (a : nat) (n : jsnum) : bool :=
  match n with
  | Num q => negb (Qle_bool (q - 1) (inject_Z (Z.of_nat a)))
  | NaN => false
  end.

(** Number of loop iterations [for (attempt = 0; attempt < n; ...)] can make. *)
Definition attempts_bound (n : jsnum) : nat :=
  match n with
  | Num q => Z.to_nat (Qceiling q)
  | NaN => O
  end.

(* ------------------------------------------------------------------ *)
(** ** Timers: what [setTimeout(resolve, ms)] waits

    The delays of the code are [Math.pow(2, attempt) * 1000], exact
    integers as doubles until they overflow to Infinity (from attempt
    1014); both functions below give the same result for such a large
    integer as for Infinity. *)

(** [2^31 - 1] *)
Definition TIMEOUT_MAX : Z := 2147483647%Z.

(** Node.js ([lib/internal/timers.js]): a delay outside [1, TIMEOUT_MAX]
    (with a TimeoutOverflowWarning when above) becomes 1 ms. *)
Definition node_timeout_ms (ms : Z) : Z :=
  if (1 <=? ms)%Z && (ms <=? TIMEOUT_MAX)%Z then ms else 1%Z.

(** WebIDL [long] conversion: ToInt32. *)
Definition to_int32 (z : Z) : Z :=
  let m := (z mod 4294967296)%Z in if (2147483648 <=? m)%Z then (m - 4294967296)%Z else m.

(** Browsers (HTML timer initialisation steps): the timeout is a [long],
    and 0 when negative. *)
Definition browser_timeout_ms (ms : Z) : Z :=
  let t := to_int32 ms in if (t <? 0)%Z then 0%Z else t.

(* ------------------------------------------------------------------ *)
(** ** [request]: the executor with its retry loop *)

(** [this.config.headers] and the other [Record<string, string>] values
    are property lists in property order.  The headers object is
    [{ 'Content-Type': 'application/json', 'X-API-Key': apiKey,
    'X-SDK-Version': '1.0.0', 'X-Waitlist-ID': waitlistId,
    ...this.config.headers }]: a spread key equal to a standard key replaces
    its value in place, any other key (one that differs from a standard key
    only in case included) is a new property after them. *)
Definition std_headers (cfg : RequiredConfig) : list (string * string) :=
  [("Content-Type", "application/json"); ("X-API-Key", apiKey cfg);
   ("X-SDK-Version", "1.0.0"); ("X-Waitlist-ID", waitlistId cfg)].

(** Assignment of a string-valued property: an existing key keeps its
    position. *)
Fixpoint prop_set (k v : string) (ps : list (string * string)) : list (string * string) :=
  match ps with
  | [] => [(k, v)]
  | (k', v') :: ps' => if String.eqb k k' then (k', v) :: ps' else (k', v') :: prop_set k v ps'
  end.

Definition request_headers (cfg : RequiredConfig) : list (string * string) :=
  fold_left (fun acc kv => prop_set (fst kv) (snd kv) acc) (headers cfg) (std_headers cfg).

(* ------------------------------------------------------------------ *)
(** ** The headers [fetch] sends (WHATWG Fetch, [new Headers(init)])

    [fetch(url, { headers })] fills a [Headers] object from the record: for
    each own property in order, [append(name, value)].  [append] strips
    leading and trailing HTTP whitespace (tab, LF, CR, space) from the
    value; it throws a TypeError, which rejects [fetch], when the name is
    not a token or the value holds NUL, LF or CR; otherwise it adds the
    pair to the header list.  Names match byte-case-insensitively, and the
    value sent for a name is the values of all its pairs joined with ", ".
    The header list below keeps one entry per lower-cased name with that
    joined value.  (Browsers also skip forbidden request-header names such
    as Cookie or Host; none of them equals a standard name up to case.) *)
















Section Executor.
Variable cfg : RequiredConfig.
Variable requestId : string.
Variable url : string.
Variable init : RequestInit.
Variable fetch : transport.

Definition ctrl : nat := ri_signal init.

(** [clearTimeout(timeoutId); this.abortControllers.delete(requestId);] *)
Definition cleanup (s : St) : St :=
  mkSt (delete requestId (abortControllers s)) (next_ctrl s)
       (List.filter (fun t => negb (Nat.eqb t ctrl)) (armed s)) (aborted s) (trace s).

(** [await this.delay(Math.pow(2, attempt) * 1000)]: the call of [delay]
    with [2^a * 1000]. *)
Definition backoff (a : nat) (s : St) : St := emit (EDelay (2 ^ Z.of_nat a * 1000)) s.

(** The [for] loop from [attempt = a] with [lastError]; [fuel] bounds the
    iterations and never runs out before the loop condition fails
    (see [attempts_bound_spec]). *)
Fixpoint retry_loop (fuel a : nat) (lastError : jsval) (s : St) : St * js_result :=
  if negb (lt_num a (retryAttempts cfg)) then (s, Rejected lastError) else
  match fuel with
  | O => (s, Rejected lastError)
  | S fuel' =>
    let s := emit (EFetch a url init) s in
    (* the [catch (error)] block *)
    let catch_ := fun (error : jsval) (s : St) =>
      let s := cleanup s in
      match get error "name" with
      | None => (s, Rejected (js_error "TypeError" "Cannot read properties of undefined"))
      | Some nm =>
        if js_eq_str nm "AbortError"
        then (s, Rejected (js_error "Error" "Request timeout"))
        else
          let sc := match get error "statusCode" with Some v => v | None => JUndefined end in
          if lt_num_m1 a (retryAttempts cfg) && negb (truthy sc)
          then retry_loop fuel' (S a) error (backoff a s)
          else retry_loop fuel' (S a) error s
      end in
    match fetch a with
    | FReject err => catch_ err s
    | FResolve status statusText body =>
      let s := cleanup s in
      if negb (response_ok status) then
        let error :=
          match body with
          | Resolved v => v
          | Rejected _ =>
              JObject [("message", JString ("HTTP " ++ z_to_dec status ++ ": " ++ statusText))]
          end in
        let e := JObject (obj_spread [("statusCode", jnum_Z status)] error) in
        if (400 <=? status)%Z && (status <? 500)%Z
        then catch_ e s
        else if lt_num_m1 a (retryAttempts cfg)
        then retry_loop fuel' (S a) e (backoff a s)
        else catch_ body_used_error s
      else
        match body with
        | Resolved data => (s, Resolved data)
        | Rejected err => catch_ err s
        end
    end
  end.
End Executor.

(** [request(method, endpoint, body)]: [body] is [JUndefined] when absent;
    [now] is [Date.now()]. *)
Definition request (cfg : RequiredConfig) (method endpoint : string) (body : jsval)
    (now : Z) (fetch : transport) (s : St) : St * js_result :=
  let url := apiUrl cfg ++ endpoint in
  let requestId := method ++ "-" ++ endpoint ++ "-" ++ z_to_dec now in
  let c := next_ctrl s in
  let s := mkSt (<[requestId := c]> (abortControllers s)) (S c) (c :: armed s)
                (aborted s) (trace s) in
  let init := mkInit method (request_headers cfg) None c in
  let run init s :=
    retry_loop cfg requestId url init fetch (attempts_bound (retryAttempts cfg)) 0 JUndefined s in
  if truthy body && negb (String.eqb method "GET") then
    if json_serialisable body
    then run (mkInit method (request_headers cfg) (Some body) c) s
    else (s, Rejected (js_error "TypeError" "Do not know how to serialize a BigInt"))
  else run init s.

(* ------------------------------------------------------------------ *)
(** ** [handleError] *)

Record WaitlyError := mkWaitlyError {
  code : string;
  message : jsval;
  details : option jsval;   (* [None]: no [details] key *)
  statusCode : jsval
}.

Definition prop (v : jsval) (k : string) : jsval :=
  match get v k with Some x => x | None => JUndefined end.

(** [handleError(error)]; [None] is the TypeError thrown by reading
    [error.statusCode] when [error] is [undefined] or [null]. *)
Definition handleError (error : jsval) : option WaitlyError :=
  match error with
  | JUndefined | JNull => None
  | _ =>
    let sc := prop error "statusCode" in
    let msg := prop error "message" in
    Some (
    if js_eq_num sc 400 then
      mkWaitlyError "VALIDATION_ERROR" (js_or msg (JString "Invalid request data"))
                    (Some (prop error "details")) (jnum_Z 400)
    else if js_eq_num sc 401 then
      mkWaitlyError "UNAUTHORIZED" (JString "Invalid API key") None (jnum_Z 401)
    else if js_eq_num sc 404 then
      mkWaitlyError "NOT_FOUND" (JString "Waitlist not found") None (jnum_Z 404)
    else if js_eq_num sc 409 then
      mkWaitlyError "DUPLICATE_ENTRY" (js_or msg (JString "Email already registered"))
                    None (jnum_Z 409)
    else if js_eq_num sc 429 then
      mkWaitlyError "RATE_LIMIT" (JString "Too many requests") None (jnum_Z 429)
    else if js_eq_str msg "Request timeout" then
      mkWaitlyError "TIMEOUT" (JString "Request timeout") None (jnum_Z 0)
    else
      mkWaitlyError "UNKNOWN_ERROR" (js_or msg (JString "An unexpected error occurred"))
                    (Some error) (js_or sc (jnum_Z 0)))
  end.

(* ------------------------------------------------------------------ *)
(** ** Public operations *)

Inductive thrown :=
| ThrowJs (v : jsval)              (* an [Error] or a runtime TypeError *)
| ThrowWaitly (w : WaitlyError).   (* [throw this.handleError(error)] *)

Inductive op_result :=
| OpReturn (v : jsval)
| OpThrow (t : thrown).

(** [catch (error) { throw this.handleError(error); }] *)
Definition rethrow (error : jsval) : op_result :=
  match handleError error with
  | Some w => OpThrow (ThrowWaitly w)
  | None => OpThrow (ThrowJs (js_error "TypeError" "Cannot read properties of undefined"))
  end.

Record WaitlyEntry := mkEntry {
  email : option string;
  referredByCode : option string;
  utm : jsval;
  metadata : jsval
}.

Definition opt_string (o : option string) : jsval :=
  match o with Some s => JString s | None => JUndefined end.

(** [createWaitlyEntry(entry)] *)
Definition createWaitlyEntry (cfg : RequiredConfig) (entry : WaitlyEntry) (now : Z)
    (fetch : transport) (s : St) : St * op_result :=
  if opt_str_falsy (email entry)
  then (s, OpThrow (ThrowJs (js_error "Error" "Email is required")))
  else
    let e := str_or (email entry) "" in
    if negb (isValidEmail e)
    then (s, OpThrow (ThrowJs (js_error "Error" "Invalid email format")))
    else
      let endpoint := "/api/waitlists/" ++ waitlistId cfg ++ "/entries" in
      let body := JObject [("email", JString (trim (toLowerCase e)));
                           ("referredByCode", opt_string (referredByCode entry));
                           ("utm", utm entry);
                           ("metadata", metadata entry)] in
      let (s', r) := request cfg "POST" endpoint body now fetch s in
      (s', match r with Resolved response => OpReturn response | Rejected err => rethrow err end).

(** [getWaitlyEntriesCount()]: ['totalEntries' in response] throws a
    TypeError when [response] is not an object. *)
Definition getWaitlyEntriesCount (cfg : RequiredConfig) (now : Z) (fetch : transport)
    (s : St) : St * op_result :=
  let endpoint := "/api/waitlists/" ++ waitlistId cfg ++ "/count" in
  let (s', r) := request cfg "GET" endpoint JUndefined now fetch s in
  (s', match r with
       | Resolved (JObject ps as response) =>
           match obj_lookup "totalEntries" ps with
           | Some _ => OpReturn (prop response "totalEntries")
           | None => OpReturn (prop response "count")
           end
       | Resolved _ => rethrow (js_error "TypeError" "Cannot use 'in' operator")
       | Rejected err => rethrow err
       end).

(** [checkEmailExists(email)] *)
Definition checkEmailExists (cfg : RequiredConfig) (e : string) (now : Z)
    (fetch : transport) (s : St) : St * op_result :=
  if negb (isValidEmail e)
  then (s, OpThrow (ThrowJs (js_error "Error" "Invalid email format")))
  else
    let endpoint := "/api/waitlists/" ++ waitlistId cfg ++ "/check" in
    let (s', r) := request cfg "POST" endpoint
                     (JObject [("email", JString (trim (toLowerCase e)))]) now fetch s in
    (s', match r with
         | Resolved response =>
             match get response "exists" with
             | Some x => OpReturn x
             | None => rethrow (js_error "TypeError" "Cannot read properties of undefined")
             end
         | Rejected err => rethrow err
         end).

(* ------------------------------------------------------------------ *)
(** ** Traces of a call *)

(** [createWaitlyClient(config)] *)
Definition createWaitlyClient (config : WaitlyConfig.t) : ctor_outcome := new_WaitlyClient config.

(** The [RequestInit] that [request] builds. *)
Definition request_init (cfg : RequiredConfig) (method : string) (body : jsval) (c : nat)
    : RequestInit :=
  mkInit method (request_headers cfg)
         (if truthy body && negb (String.eqb method "GET") then Some body else None) c.

(** The events of attempt [i]: the call of [fetch], then the backoff
    delay when [d] holds. *)
Definition attempt_events (url : string) (init : RequestInit) (i : nat) (d : bool) : list event :=
  EFetch i url init :: (if d then [EDelay (2 ^ Z.of_nat i * 1000)] else []).

Fixpoint attempts_trace (url : string) (init : RequestInit) (a : nat) (ds : list bool) : list event :=
  match ds with
  | [] => []
  | d :: ds' => (attempt_events url init a d ++ attempts_trace url init (S a) ds')%list
  end.

(** A failure the loop treats as a network error: [fetch] rejects, or a 2xx
    response whose body does not parse, with an error that is not an
    AbortError and has no truthy statusCode. *)
Definition network_like (err : jsval) : Prop :=
  exists nm, get err "name" = Some nm /\ js_eq_str nm "AbortError" = false
             /\ truthy (prop err "statusCode") = false.

Definition fails_with (o : fetch_outcome) (err : jsval) : Prop :=
  o = FReject err \/ exists st txt, response_ok st = true /\ o = FResolve st txt (Rejected err).


(** Sum of the delays passed to [delay] in a trace (each host waits at
    most that long, [timeout_ms_le]). *)
Definition total_delay (t : list event) : Z :=
  fold_right (fun e acc => match e with EDelay ms => (ms + acc)%Z | EFetch _ _ _ => acc end) 0%Z t.


(* ------------------------------------------------------------------ *)
(** ** Concrete runs *)

Definition st0 : St := mkSt ∅ 0 [] [] [].

Definition client0 : RequiredConfig :=
  mkRequired "wl1" "key1" "https://www.gowaitly.com" (Num 10000) (Num 3) [].

Definition entry0 : WaitlyEntry := mkEntry (Some "User@Example.com") None JUndefined JUndefined.

Definition resp (status : Z) (text : string) (v : jsval) : fetch_outcome :=
  FResolve status text (Resolved v).

(** 500, 500, then 200: three calls, delays 1000 ms and 2000 ms. *)
Definition t500_500_ok : transport :=
  fun a => match a with
           | 0 | 1 => resp 500 "Internal Server Error" (JObject [])
           | _ => resp 200 "OK" (JObject [("id", JString "e1"); ("email", JString "user@example.com")])
           end.

Example run_500_500_ok :
  let '(s', r) := createWaitlyEntry client0 entry0 7 t500_500_ok st0 in
  r = OpReturn (JObject [("id", JString "e1"); ("email", JString "user@example.com")])
  /\ map (fun e => match e with EFetch a _ _ => inl a | EDelay ms => inr ms end) (trace s')
     = [inl 0%nat; inr 1000%Z; inl 1%nat; inr 2000%Z; inl 2%nat].
Proof. vm_compute. split; reflexivity. Qed.

(** Transports and states used by the runs below. *)
Definition t_count : transport := fun _ => resp 200 "OK" (JObject [("count", jnum_Z 42)]).
Definition t_exists : transport := fun _ => resp 200 "OK" (JObject [("exists", JBool true)]).
Definition net_error : jsval := js_error "TypeError" "fetch failed".
Definition t_net : transport := fun _ => FReject net_error.
Definition st_busy : St := mkSt {[ "GET-/x-7" := 5%nat ]} 6 [5%nat] [] [].
Definition entry_meta : WaitlyEntry :=
  mkEntry (Some "User@Example.com") (Some "ref1") JUndefined (JObject [("plan", JString "pro")]).

(* ------------------------------------------------------------------ *)
(** ** Theorems *)

(** The loop's fuel agrees with its condition: iteration [a] runs exactly
    when [a < retryAttempts]. *)
Lemma attempts_bound_spec (n : jsnum) (a : nat) :
  lt_num a n = true <-> (a < attempts_bound n)%nat.
Proof.
  destruct n as [q|]; simpl; [|split; [discriminate|lia]].
  rewrite negb_true_iff, <- not_true_iff_false, Qle_bool_iff.
  split.
  - intros H. apply Qnot_le_lt in H.
    assert (Hc : (Z.of_nat a < Qceiling q)%Z).
    { destruct (Z_lt_le_dec (Z.of_nat a) (Qceiling q)) as [h|h]; [exact h|].
      exfalso. apply (Qlt_not_le _ _ H).
      apply Qle_trans with (inject_Z (Qceiling q)); [apply Qle_ceiling|].
      rewrite <- Zle_Qle. exact h. }
    lia.
  - intros H Hle.
    assert (Hc : (Qceiling q <= Z.of_nat a)%Z).
    { rewrite <- (Qceiling_Z (Z.of_nat a)). apply Qceiling_resp_le. exact Hle. }
    lia.
Qed.

(** C8: construction fails with "waitlistId is required" when waitlistId is
    empty or absent, else with "apiKey is required" when apiKey is empty
    or absent; otherwise it yields the resolved configuration, whose absent
    fields take the defaults "https://www.gowaitly.com", 10000, 3 and {}.
    The constructor is a pure function: it has no state, no trace and no
    transport to call. *)
Theorem new_WaitlyClient_spec (c : WaitlyConfig.t) :
  ((WaitlyConfig.waitlistId c = None \/ WaitlyConfig.waitlistId c = Some "") ->
   new_WaitlyClient c = CtorThrows (js_error "Error" "waitlistId is required"))
  /\ (forall w, WaitlyConfig.waitlistId c = Some w -> w <> "" ->
      (WaitlyConfig.apiKey c = None \/ WaitlyConfig.apiKey c = Some "") ->
      new_WaitlyClient c = CtorThrows (js_error "Error" "apiKey is required"))
  /\ (forall w k, WaitlyConfig.waitlistId c = Some w -> w <> "" ->
      WaitlyConfig.apiKey c = Some k -> k <> "" ->
      exists cfg, new_WaitlyClient c = Constructed cfg
        /\ waitlistId cfg = w /\ apiKey cfg = k
        /\ (WaitlyConfig.apiUrl c = None -> apiUrl cfg = "https://www.gowaitly.com")
        /\ (WaitlyConfig.timeout c = None -> timeout cfg = Num 10000)
        /\ (WaitlyConfig.retryAttempts c = None -> retryAttempts cfg = Num 3)
        /\ (WaitlyConfig.headers c = None -> headers cfg = [])).
Proof.
  destruct c as [wi ak au tm ra hd]; unfold new_WaitlyClient; cbn [WaitlyConfig.waitlistId
    WaitlyConfig.apiKey WaitlyConfig.apiUrl WaitlyConfig.timeout WaitlyConfig.retryAttempts
    WaitlyConfig.headers].
  split; [|split].
  - intros [-> | ->]; reflexivity.
  - intros w -> Hne [-> | ->]; unfold opt_str_falsy;
      apply String.eqb_neq in Hne; rewrite Hne; reflexivity.
  - intros w k -> Hw -> Hk. unfold opt_str_falsy, str_or.
    apply String.eqb_neq in Hw, Hk. rewrite Hw, Hk.
    eexists; split; [reflexivity|]. cbn [waitlistId apiKey apiUrl timeout retryAttempts headers].
    repeat split; intros ->; reflexivity.
Qed.

Definition config_full : WaitlyConfig.t :=
  WaitlyConfig.mk (Some "wl1") (Some "key1") None None None None.

Lemma new_WaitlyClient_spec_witness :
  exists cfg, new_WaitlyClient config_full = Constructed cfg
    /\ waitlistId cfg = "wl1" /\ apiKey cfg = "key1"
    /\ (WaitlyConfig.apiUrl config_full = None -> apiUrl cfg = "https://www.gowaitly.com")
    /\ (WaitlyConfig.timeout config_full = None -> timeout cfg = Num 10000)
    /\ (WaitlyConfig.retryAttempts config_full = None -> retryAttempts cfg = Num 3)
    /\ (WaitlyConfig.headers config_full = None -> headers cfg = []).
Proof.
  apply (proj2 (proj2 (new_WaitlyClient_spec config_full)) "wl1" "key1");
    [reflexivity | discriminate | reflexivity | discriminate].
Defined.

(** C10 (counterexample): a present [retryAttempts] of NaN, which is not an
    integer, is not kept: [config.retryAttempts || 3] replaces it by 3. *)
Lemma retryAttempts_NaN_replaced :
  new_WaitlyClient (WaitlyConfig.mk (Some "wl1") (Some "key1") None None (Some NaN) None)
  = Constructed (mkRequired "wl1" "key1" "https://www.gowaitly.com" (Num 10000) (Num 3) [])
  /\ Num 3 <> NaN.
Proof. split; [reflexivity | discriminate]. Qed.

(** C10 (amended): a present but falsy field (retryAttempts or timeout 0 or
    NaN, apiUrl "") is replaced by its default (3, 10000,
    "https://www.gowaitly.com"); any other present value, in particular a
    negative or non-integer number, is kept as given. *)
Theorem new_WaitlyClient_falsy_defaults (c : WaitlyConfig.t) (cfg : RequiredConfig) :
  new_WaitlyClient c = Constructed cfg ->
  (forall n, WaitlyConfig.retryAttempts c = Some n ->
     ((n = NaN \/ exists q, n = Num q /\ q == 0) -> retryAttempts cfg = Num 3)
     /\ (forall q, n = Num q -> ~ q == 0 -> retryAttempts cfg = Num q))
  /\ (forall n, WaitlyConfig.timeout c = Some n ->
     ((n = NaN \/ exists q, n = Num q /\ q == 0) -> timeout cfg = Num 10000)
     /\ (forall q, n = Num q -> ~ q == 0 -> timeout cfg = Num q))
  /\ (WaitlyConfig.apiUrl c = Some "" -> apiUrl cfg = "https://www.gowaitly.com")
  /\ (forall u, WaitlyConfig.apiUrl c = Some u -> u <> "" -> apiUrl cfg = u).
Proof.
  unfold new_WaitlyClient.
  destruct (opt_str_falsy (WaitlyConfig.waitlistId c)); [discriminate|].
  destruct (opt_str_falsy (WaitlyConfig.apiKey c)); [discriminate|].
  intros H; injection H as <-; simpl.
  assert (Hnum : forall (o : option jsnum) d n, o = Some n ->
            ((n = NaN \/ exists q, n = Num q /\ q == 0) -> num_or o d = d)
            /\ (forall q, n = Num q -> ~ q == 0 -> num_or o d = Num q)).
  { intros o d n -> ; unfold num_or, num_truthy; simpl; split.
    - intros [-> | [q [-> Hq]]]; simpl; [reflexivity|].
      apply Qeq_bool_iff in Hq. rewrite Hq. reflexivity.
    - intros q -> Hq. simpl.
      destruct (Qeq_bool q 0) eqn:E; [apply Qeq_bool_iff in E; contradiction|reflexivity]. }
  split; [|split; [|split]].
  - intros n Hn. apply Hnum. exact Hn.
  - intros n Hn. apply Hnum. exact Hn.
  - intros ->. reflexivity.
  - intros u -> Hu. simpl. apply String.eqb_neq in Hu. rewrite Hu. reflexivity.
Qed.

Definition config_falsy : WaitlyConfig.t :=
  WaitlyConfig.mk (Some "wl1") (Some "key1") (Some "") (Some (Num 0))
                  (Some (Num (inject_Z (-1)))) None.

Definition resolved_falsy : RequiredConfig :=
  mkRequired "wl1" "key1" "https://www.gowaitly.com" (Num 10000) (Num (inject_Z (-1))) [].

Lemma new_WaitlyClient_falsy_defaults_witness :
  new_WaitlyClient config_falsy = Constructed resolved_falsy
  /\ retryAttempts resolved_falsy = Num (inject_Z (-1))
  /\ timeout resolved_falsy = Num 10000.
Proof.
  assert (H : new_WaitlyClient config_falsy = Constructed resolved_falsy) by reflexivity.
  split; [exact H|split].
  - refine (proj2 (proj1 (new_WaitlyClient_falsy_defaults _ _ H) _ eq_refl)
                  (inject_Z (-1)) eq_refl _).
    vm_compute. discriminate.
  - refine (proj1 (proj1 (proj2 (new_WaitlyClient_falsy_defaults _ _ H)) _ eq_refl) _).
    right. exists 0%Q. split; reflexivity.
Defined.

(** [handleError] on any value other than [undefined] and [null]: the
    chain of tests in source order. *)
Lemma handleError_object (error : jsval) :
  error <> JUndefined -> error <> JNull ->
  handleError error =
  let sc := prop error "statusCode" in
  let msg := prop error "message" in
  Some (
    if js_eq_num sc 400 then
      mkWaitlyError "VALIDATION_ERROR" (js_or msg (JString "Invalid request data"))
                    (Some (prop error "details")) (jnum_Z 400)
    else if js_eq_num sc 401 then
      mkWaitlyError "UNAUTHORIZED" (JString "Invalid API key") None (jnum_Z 401)
    else if js_eq_num sc 404 then
      mkWaitlyError "NOT_FOUND" (JString "Waitlist not found") None (jnum_Z 404)
    else if js_eq_num sc 409 then
      mkWaitlyError "DUPLICATE_ENTRY" (js_or msg (JString "Email already registered"))
                    None (jnum_Z 409)
    else if js_eq_num sc 429 then
      mkWaitlyError "RATE_LIMIT" (JString "Too many requests") None (jnum_Z 429)
    else if js_eq_str msg "Request timeout" then
      mkWaitlyError "TIMEOUT" (JString "Request timeout") None (jnum_Z 0)
    else
      mkWaitlyError "UNKNOWN_ERROR" (js_or msg (JString "An unexpected error occurred"))
                    (Some error) (js_or sc (jnum_Z 0))).
Proof. destruct error; intros H1 H2; try congruence; reflexivity. Qed.

(** C6 (counterexample): a raw error whose [statusCode] is present but
    [null] is normalized with statusCode 0, not its raw statusCode; and the
    raw error [undefined] (thrown by [request] when the loop makes no
    attempt) is not normalized at all: reading [error.statusCode] throws. *)
Lemma handleError_null_statusCode :
  handleError (JObject [("statusCode", JNull); ("message", JString "boom")])
  = Some (mkWaitlyError "UNKNOWN_ERROR" (JString "boom")
            (Some (JObject [("statusCode", JNull); ("message", JString "boom")]))
            (jnum_Z 0))
  /\ jnum_Z 0 <> JNull
  /\ handleError JUndefined = None.
Proof. split; [reflexivity | split; [discriminate | reflexivity]]. Qed.

Lemma js_eq_num_unique (v : jsval) (a b : Q) :
  js_eq_num v a = true -> js_eq_num v b = true -> Qeq_bool a b = true.
Proof.
  destruct v as [| | | [q|] | | |]; simpl; try discriminate.
  rewrite !Qeq_bool_iff. intros Ha Hb. rewrite <- Ha, <- Hb. reflexivity.
Qed.

Ltac split_ifs :=
  repeat match goal with
         | |- context [if ?b then _ else _] => let E := fresh "E" in destruct b eqn:E
         end.

(** C6 (amended): for every raw error that is an object or a primitive
    other than [undefined]/[null], [handleError] returns a normalized error
    by these rows, tested in this order: statusCode === 400, 401, 404, 409,
    429 give VALIDATION_ERROR, UNAUTHORIZED, NOT_FOUND, DUPLICATE_ENTRY,
    RATE_LIMIT with that statusCode; then message === 'Request timeout'
    gives TIMEOUT with statusCode 0; every other input gives UNKNOWN_ERROR
    with statusCode [rawError.statusCode || 0], i.e. the raw statusCode
    when it is truthy, else 0. *)
Theorem handleError_table (error : jsval) :
  error <> JUndefined -> error <> JNull ->
  exists w, handleError error = Some w /\
  let sc := prop error "statusCode" in
  let msg := prop error "message" in
  (js_eq_num sc 400 = true -> code w = "VALIDATION_ERROR" /\ statusCode w = jnum_Z 400)
  /\ (js_eq_num sc 401 = true -> code w = "UNAUTHORIZED" /\ statusCode w = jnum_Z 401)
  /\ (js_eq_num sc 404 = true -> code w = "NOT_FOUND" /\ statusCode w = jnum_Z 404)
  /\ (js_eq_num sc 409 = true -> code w = "DUPLICATE_ENTRY" /\ statusCode w = jnum_Z 409)
  /\ (js_eq_num sc 429 = true -> code w = "RATE_LIMIT" /\ statusCode w = jnum_Z 429)
  /\ (forallb (fun q => negb (js_eq_num sc q)) [400; 401; 404; 409; 429]%Q = true ->
      js_eq_str msg "Request timeout" = true ->
      code w = "TIMEOUT" /\ statusCode w = jnum_Z 0)
  /\ (forallb (fun q => negb (js_eq_num sc q)) [400; 401; 404; 409; 429]%Q = true ->
      js_eq_str msg "Request timeout" = false ->
      code w = "UNKNOWN_ERROR"
      /\ statusCode w = (if truthy sc then sc else jnum_Z 0)).
Proof.
  intros H1 H2. rewrite (handleError_object error H1 H2). cbv zeta.
  eexists; split; [reflexivity|].
  set (sc := prop error "statusCode"); set (msg := prop error "message").
  cbn [forallb negb andb].
  split_ifs; cbn [code statusCode]; repeat split; intros; repeat split; try reflexivity;
    repeat match goal with
           | H : _ && _ = true |- _ => apply andb_true_iff in H as [? ?]
           | H : negb _ = true |- _ => apply negb_true_iff in H
           end;
    try congruence;
    try (unfold js_or; match goal with H : truthy _ = _ |- _ => rewrite H; reflexivity end);
    match goal with
    | H : js_eq_num ?v ?a = true, H' : js_eq_num ?v ?b = true |- _ =>
        pose proof (js_eq_num_unique v a b H H') as X; vm_compute in X; discriminate X
    end.
Qed.

Lemma handleError_table_witness :
  exists w, handleError (JObject [("statusCode", jnum_Z 404)]) = Some w /\
  code w = "NOT_FOUND" /\ statusCode w = jnum_Z 404.
Proof.
  destruct (handleError_table (JObject [("statusCode", jnum_Z 404)]))
    as [w [Hw [_ [_ [H404 _]]]]]; try discriminate.
  exists w. split; [exact Hw|]. apply H404. reflexivity.
Defined.

(** *** The email regular expression *)

Definition has_whitespace (e : string) : bool :=
  existsb is_js_space (list_ascii_of_string e).

Definition has_at (e : string) : bool :=
  existsb (fun c => Ascii.eqb c "@") (list_ascii_of_string e).

(** The domain part: what follows the first ['@']. *)
Fixpoint after_at (s : list ascii) : list ascii :=
  match s with
  | [] => []
  | c :: s' => if Ascii.eqb c "@" then s' else after_at s'
  end.

Definition domain_has_dot (e : string) : bool :=
  existsb (fun c => Ascii.eqb c ".") (after_at (list_ascii_of_string e)).

(** A malformed email: it contains a character of [\s], or has no ['@'],
    or has no dot in its domain part. *)
Definition malformed_email (e : string) : Prop :=
  has_whitespace e = true \/ has_at e = false \/ domain_has_dot e = false.

Lemma plus_match_inv (a : atom) (s : list ascii) (k : list ascii -> bool) :
  plus_match a s k = true ->
  exists p rest, p <> [] /\ Forall (fun c => atom_matches a c = true) p
                 /\ s = (p ++ rest)%list /\ k rest = true.
Proof.
  induction s as [|c s IH]; simpl; [discriminate|].
  intros H. apply andb_true_iff in H as [Hc H]. apply orb_true_iff in H as [H|H].
  - destruct (IH H) as (p & rest & _ & Hp & -> & Hk).
    exists (c :: p), rest. repeat split; [discriminate | constructor; assumption | assumption].
  - exists [c], s. repeat split; [discriminate | constructor; auto | assumption].
Qed.

Definition local_char : atom := ANegClass [CSpace; CChar "@"].

Lemma local_char_inv (c : ascii) :
  atom_matches local_char c = true -> is_js_space c = false /\ Ascii.eqb c "@" = false.
Proof.
  unfold local_char; simpl. rewrite orb_false_r.
  intros H. apply negb_true_iff, orb_false_iff in H. exact H.
Qed.

Lemma emailRegex_shape (e : string) :
  isValidEmail e = true ->
  exists l d1 d2,
    list_ascii_of_string e = (l ++ "@"%char :: d1 ++ "."%char :: d2)%list
    /\ Forall (fun c => atom_matches local_char c = true) l
    /\ Forall (fun c => atom_matches local_char c = true) d1
    /\ Forall (fun c => atom_matches local_char c = true) d2.
Proof.
  unfold isValidEmail, regex_test, emailRegex. cbn [anchored_start anchored_end pieces].
  intros H. apply plus_match_inv in H as (l & r1 & _ & Hl & Hs & H).
  destruct r1 as [|c1 r1]; [discriminate|].
  apply andb_true_iff in H as [Hc1 H]. apply Ascii.eqb_eq in Hc1; subst c1.
  apply plus_match_inv in H as (d1 & r2 & _ & Hd1 & -> & H).
  destruct r2 as [|c2 r2]; [discriminate|].
  apply andb_true_iff in H as [Hc2 H]. apply Ascii.eqb_eq in Hc2; subst c2.
  apply plus_match_inv in H as (d2 & r3 & _ & Hd2 & -> & H).
  destruct r3; [|discriminate].
  exists l, d1, d2. rewrite app_nil_r in Hs. repeat split; assumption.
Qed.

Lemma existsb_local (f : ascii -> bool) (l : list ascii) :
  (forall c, atom_matches local_char c = true -> f c = false) ->
  Forall (fun c => atom_matches local_char c = true) l -> existsb f l = false.
Proof.
  intros Hf Hl. induction Hl as [|c l Hc _ IH]; [reflexivity|].
  simpl. rewrite (Hf c Hc). exact IH.
Qed.

Lemma after_at_local (l x : list ascii) :
  Forall (fun c => atom_matches local_char c = true) l -> after_at (l ++ x)%list = after_at x.
Proof.
  intros Hl. induction Hl as [|c l Hc _ IH]; [reflexivity|].
  simpl. rewrite (proj2 (local_char_inv c Hc)). exact IH.
Qed.

Lemma malformed_invalid (e : string) : malformed_email e -> isValidEmail e = false.
Proof.
  intros Hm. destruct (isValidEmail e) eqn:Hv; [|reflexivity]. exfalso.
  destruct (emailRegex_shape e Hv) as (l & d1 & d2 & Hs & Hl & Hd1 & Hd2).
  unfold malformed_email, has_whitespace, has_at, domain_has_dot in Hm. rewrite Hs in Hm.
  destruct Hm as [Hm|[Hm|Hm]].
  - rewrite existsb_app in Hm. simpl in Hm. rewrite existsb_app in Hm. simpl in Hm.
    rewrite !(existsb_local is_js_space) in Hm by (assumption || (intros c Hc; apply local_char_inv, Hc)).
    discriminate.
  - rewrite existsb_app in Hm. simpl in Hm. rewrite orb_true_r in Hm. discriminate.
  - rewrite after_at_local in Hm by assumption. simpl in Hm.
    rewrite existsb_app in Hm. simpl in Hm. rewrite orb_true_r in Hm. discriminate.
Qed.

(** The check on code units agrees with the check on the model's strings. *)
Lemma plus_match_units (a16 : Utf16.atom) (a : atom)
    (Ha : forall c, Utf16.atom_matches a16 (unit_of c) = atom_matches a c)
    (s : list ascii) (k16 : list N -> bool) (k : list ascii -> bool) :
  (forall r, k16 (map unit_of r) = k r) ->
  Utf16.plus_match a16 (map unit_of s) k16 = plus_match a s k.
Proof.
  intros Hk. induction s as [|c s IH]; simpl; [reflexivity|].
  rewrite Ha, IH, Hk. reflexivity.
Qed.

Lemma match_pieces_units (ps16 : list (Utf16.atom * quant)) (ps : list (atom * quant)) :
  Forall2 (fun p16 p => snd p16 = snd p
             /\ forall c, Utf16.atom_matches (fst p16) (unit_of c) = atom_matches (fst p) c)
          ps16 ps ->
  forall s k16 k, (forall r, k16 (map unit_of r) = k r) ->
  Utf16.match_pieces ps16 (map unit_of s) k16 = match_pieces ps s k.
Proof.
  induction 1 as [|[a16 q16] [a q] ps16 ps [Hq Ha] _ IH]; intros s k16 k Hk;
    cbn [fst snd] in *; [apply Hk|].
  subst q16. destruct q.
  - destruct s as [|c s]; [reflexivity|]. simpl. rewrite Ha, (IH s k16 k Hk). reflexivity.
  - simpl. apply plus_match_units; [exact Ha|]. intros r. apply IH, Hk.
Qed.

Lemma isValidEmail_units (e : string) : Utf16.isValidEmail (units e) = isValidEmail e.
Proof.
  unfold Utf16.isValidEmail, isValidEmail, Utf16.regex_test, regex_test, units.
  cbn [Utf16.anchored_start anchored_start Utf16.anchored_end anchored_end
       Utf16.pieces pieces Utf16.emailRegex emailRegex].
  apply match_pieces_units.
  - repeat constructor; intros c; destruct c as [[] [] [] [] [] [] [] []]; reflexivity.
  - intros [|c r]; reflexivity.
Qed.













(** *** The retry loop *)

(** *** The timers *)

Section Timers.
Local Open Scope Z_scope.

Lemma timeout_ms_le (ms : Z) :
  (1 <= ms)%Z -> (node_timeout_ms ms <= ms /\ browser_timeout_ms ms <= ms)%Z.
Proof.
  intros H. unfold node_timeout_ms, browser_timeout_ms, to_int32, TIMEOUT_MAX. split.
  - destruct ((1 <=? ms) && (ms <=? 2147483647)); lia.
  - pose proof (Z.mod_pos_bound ms 4294967296 ltac:(lia)).
    assert (ms mod 4294967296 <= ms)%Z by (apply Z.mod_le; lia).
    destruct (2147483648 <=? ms mod 4294967296) eqn:E1;
      [apply Z.leb_le in E1 | apply Z.leb_gt in E1];
      match goal with |- context [if ?c then _ else _] => destruct c eqn:E2 end; lia.
Qed.

Lemma backoff_waits_full (a : nat) : (a <= 21)%nat ->
  node_timeout_ms (2 ^ Z.of_nat a * 1000) = 2 ^ Z.of_nat a * 1000
  /\ browser_timeout_ms (2 ^ Z.of_nat a * 1000) = 2 ^ Z.of_nat a * 1000.
Proof.
  intros Ha.
  assert (H1 : (1 <= 2 ^ Z.of_nat a)%Z).
  { apply (Z.pow_le_mono_r 2 0); lia. }
  assert (H2 : (2 ^ Z.of_nat a <= 2 ^ 21)%Z) by (apply Z.pow_le_mono_r; lia).
  change (2 ^ 21)%Z with 2097152%Z in H2.
  unfold node_timeout_ms, browser_timeout_ms, to_int32, TIMEOUT_MAX. split.
  - replace ((1 <=? 2 ^ Z.of_nat a * 1000) && (2 ^ Z.of_nat a * 1000 <=? 2147483647)) with true
      by (symmetry; apply andb_true_iff; split; apply Z.leb_le; lia).
    reflexivity.
  - rewrite Z.mod_small by lia.
    replace (2147483648 <=? 2 ^ Z.of_nat a * 1000) with false by (symmetry; apply Z.leb_gt; lia).
    replace (2 ^ Z.of_nat a * 1000 <? 0) with false by (symmetry; apply Z.ltb_ge; lia).
    reflexivity.
Qed.


End Timers.

Section LoopFacts.
Variable cfg : RequiredConfig.
Variable requestId : string.
Variable url : string.
Variable init : RequestInit.
Variable fetch : transport.

Abbreviation loop := (retry_loop cfg requestId url init fetch).


Lemma retry_loop_stop (fuel a : nat) (le : jsval) (s : St) :
  lt_num a (retryAttempts cfg) = false -> loop fuel a le s = (s, Rejected le).
Proof. intros H. destruct fuel; simpl; rewrite H; reflexivity. Qed.



(** C5: when [fetch] rejects with an AbortError (the armed timeout, or a
    cancellation, aborted the signal) at a running attempt [a], the loop
    stops at once: no further [fetch] or delay, the controller is removed
    and the timeout cleared, and it throws [new Error('Request timeout')],
    which the public operations normalize to TIMEOUT with statusCode 0. *)
Theorem abort_fails_with_timeout (fuel a : nat) (le err : jsval) (s : St) :
  lt_num a (retryAttempts cfg) = true ->
  fetch a = FReject err -> get err "name" = Some (JString "AbortError") ->
  loop (S fuel) a le s
    = (cleanup requestId init (emit (EFetch a url init) s),
       Rejected (js_error "Error" "Request timeout"))
  /\ rethrow (js_error "Error" "Request timeout")
     = OpThrow (ThrowWaitly (mkWaitlyError "TIMEOUT" (JString "Request timeout") None (jnum_Z 0))).
Proof.
  intros Hlt Hf Hn. split; [|reflexivity].
  cbn [retry_loop]. rewrite Hlt. cbn [negb]. rewrite Hf. rewrite Hn. reflexivity.
Qed.

End LoopFacts.

(** *** Witnesses and runs for the loop *)

Definition init0 : RequestInit := mkInit "POST" (request_headers client0) None 0.


Definition abort_error : jsval :=
  JObject [("name", JString "AbortError"); ("message", JString "This operation was aborted")].

(** A transport that never answers before the timeout fires. *)
Definition t_abort : transport := fun _ => FReject abort_error.

Lemma abort_fails_with_timeout_witness :
  retry_loop client0 "POST-/x-7" "https://www.gowaitly.com/x" init0 t_abort 3 0 JUndefined st0
  = (cleanup "POST-/x-7" init0 (emit (EFetch 0 "https://www.gowaitly.com/x" init0) st0),
     Rejected (js_error "Error" "Request timeout"))
  /\ rethrow (js_error "Error" "Request timeout")
     = OpThrow (ThrowWaitly (mkWaitlyError "TIMEOUT" (JString "Request timeout") None (jnum_Z 0))).
Proof.
  apply (abort_fails_with_timeout client0 "POST-/x-7" "https://www.gowaitly.com/x" init0 t_abort
           2 0 JUndefined abort_error st0); reflexivity.
Defined.

Definition count_fetches (t : list event) : nat :=
  length (List.filter (fun e => match e with EFetch _ _ _ => true | EDelay _ => false end) t).




Example run_abort :
  let '(s', r) := createWaitlyEntry client0 entry0 7 t_abort st0 in
  r = OpThrow (ThrowWaitly (mkWaitlyError "TIMEOUT" (JString "Request timeout") None (jnum_Z 0)))
  /\ count_fetches (trace s') = 1%nat.
Proof. vm_compute. split; reflexivity. Qed.

(** *** Headers *)





















(** *** Client errors, exhaustion, and the registry *)

(** Every attempt answers 404. *)
Definition t404 : transport := fun _ => resp 404 "Not Found" (JObject []).

(** 404 on the first attempt, then 200. *)
Definition t404_then_ok : transport :=
  fun a => match a with
           | 0 => resp 404 "Not Found" (JObject [])
           | _ => resp 200 "OK" (JObject [("id", JString "e1"); ("email", JString "user@example.com")])
           end.

(** C1 (code bug): the 4xx [throw] sits inside the [try] and is caught by
    the loop's own [catch], which records it and, since it has a
    statusCode, skips only the delay: the [for] loop goes on.  With the
    default retryAttempts = 3, a transport answering 404 is called three
    times; a transport answering 404 then 200 yields the success payload. *)
Lemma client_error_refetched :
  count_fetches (trace (fst (createWaitlyEntry client0 entry0 7 t404 st0))) = 3%nat
  /\ snd (createWaitlyEntry client0 entry0 7 t404 st0)
     = OpThrow (ThrowWaitly (mkWaitlyError "NOT_FOUND" (JString "Waitlist not found") None (jnum_Z 404)))
  /\ count_fetches (trace (fst (createWaitlyEntry client0 entry0 7 t404_then_ok st0))) = 2%nat
  /\ snd (createWaitlyEntry client0 entry0 7 t404_then_ok st0)
     = OpReturn (JObject [("id", JString "e1"); ("email", JString "user@example.com")]).
Proof. vm_compute. repeat split; reflexivity. Qed.

(** Every attempt answers 500 with a JSON body. *)
Definition t500_boom : transport :=
  fun _ => resp 500 "Internal Server Error" (JObject [("message", JString "boom")]).

Definition entries_endpoint : string := "/api/waitlists/wl1/entries".



Definition entry0_body : jsval :=
  JObject [("email", JString "user@example.com"); ("referredByCode", JUndefined);
           ("utm", JUndefined); ("metadata", JUndefined)].

(** C4 (code bug): on the last attempt a 5xx response is recorded as
    [lastError] and then falls through to [await response.json()], a
    second read of the consumed body, which rejects; the catch records that
    TypeError instead and it is what [request] throws.  The 500 error of the
    final attempt is not raised, and the caller sees UNKNOWN_ERROR with
    statusCode 0. *)
Lemma exhaustion_raises_other_error :
  snd (request client0 "POST" entries_endpoint entry0_body 7 t500_boom st0)
    = Rejected body_used_error
  /\ body_used_error <> JObject [("statusCode", jnum_Z 500); ("message", JString "boom")]
  /\ snd (createWaitlyEntry client0 entry0 7 t500_boom st0)
     = OpThrow (ThrowWaitly (mkWaitlyError "UNKNOWN_ERROR" (JString "Body is unusable")
                               (Some body_used_error) (jnum_Z 0))).
Proof. split; [vm_compute; reflexivity | split; [discriminate | vm_compute; reflexivity]]. Qed.

(** [cancelAllRequests] aborts every registered controller and empties
    the map; a second call aborts nothing and changes nothing. *)
Lemma cancelAllRequests_idempotent (s : St) :
  abortControllers (cancelAllRequests s) = ∅
  /\ cancelAllRequests (cancelAllRequests s) = cancelAllRequests s.
Proof.
  split; [reflexivity|].
  unfold cancelAllRequests; simpl. rewrite map_to_list_empty. simpl.
  rewrite app_nil_r. reflexivity.
Qed.

Section Registry.
Variable cfg : RequiredConfig.
Variable requestId : string.
Variable url : string.
Variable init : RequestInit.
Variable fetch : transport.

Lemma retry_loop_registry (fuel a : nat) (le : jsval) (s : St) :
  let m := abortControllers (fst (retry_loop cfg requestId url init fetch fuel a le s)) in
  m = abortControllers s \/ m = delete requestId (abortControllers s).
Proof.
  revert a le s. induction fuel as [|fuel IH]; intros a le s; simpl.
  - destruct (negb _); left; reflexivity.
  - destruct (negb _); [left; reflexivity|].
    repeat match goal with
           | |- context [match ?x with _ => _ end] => destruct x
           end;
      match goal with
      | |- context [fst (retry_loop _ _ _ _ _ fuel ?a' ?le' ?s1)] =>
          destruct (IH a' le' s1) as [-> | ->]; simpl; right;
          rewrite ?delete_delete_eq; reflexivity
      | |- _ => right; simpl; rewrite ?delete_delete_eq; reflexivity
      end.
Qed.

(** Inside the loop every outcome removes the request's controller:
    once an attempt has run, the map is [delete requestId] of the map on
    entry, whatever the transport did. *)
Lemma retry_loop_deregisters (fuel a : nat) (le : jsval) (s : St) :
  lt_num a (retryAttempts cfg) = true ->
  abortControllers (fst (retry_loop cfg requestId url init fetch (S fuel) a le s))
  = delete requestId (abortControllers s).
Proof.
  intros Hlt. cbn [retry_loop]. rewrite Hlt. cbn [negb].
  repeat match goal with
         | |- context [match ?x with _ => _ end] => destruct x
         end;
    match goal with
    | |- context [fst (retry_loop _ _ _ _ _ fuel ?a' ?le' ?s1)] =>
        destruct (retry_loop_registry fuel a' le' s1) as [-> | ->]; simpl;
        rewrite ?delete_delete_eq; reflexivity
    | |- _ => simpl; rewrite ?delete_delete_eq; reflexivity
    end.
Qed.
End Registry.

(** An entry whose metadata holds a BigInt: [JSON.stringify] throws. *)
Definition entry_bigint : WaitlyEntry :=
  mkEntry (Some "user@example.com") None JUndefined (JObject [("userId", JBigInt 1)]).

Definition client_negative : RequiredConfig :=
  mkRequired "wl1" "key1" "https://www.gowaitly.com" (Num 10000) (Num (inject_Z (-1))) [].

(** C9 (code bug): [request] registers the controller before
    [JSON.stringify(body)] and before the loop, but removes it only inside
    the loop.  A call whose body cannot be serialised (a BigInt in
    [metadata]) settles with an error while its controller stays in
    [abortControllers] and its timeout stays armed; so does a call with a
    negative retryAttempts, where the loop makes no attempt and
    [throw lastError] throws [undefined]. *)
Lemma settled_request_keeps_handle :
  let '(s1, r1) := createWaitlyEntry client0 entry_bigint 7 t500_500_ok st0 in
  r1 = OpThrow (ThrowWaitly (mkWaitlyError "UNKNOWN_ERROR"
                 (JString "Do not know how to serialize a BigInt")
                 (Some (js_error "TypeError" "Do not know how to serialize a BigInt"))
                 (jnum_Z 0)))
  /\ abortControllers s1 !! "POST-/api/waitlists/wl1/entries-7" = Some 0%nat
  /\ armed s1 = [0%nat]
  /\ count_fetches (trace s1) = 0%nat
  /\ let '(s2, r2) := request client_negative "POST" entries_endpoint entry0_body 7 t500_500_ok st0 in
     r2 = Rejected JUndefined
     /\ abortControllers s2 !! "POST-/api/waitlists/wl1/entries-7" = Some 0%nat.
Proof. vm_compute. repeat split; reflexivity. Qed.

(* ------------------------------------------------------------------ *)
(** ** Further properties of the code *)

(** *** The loop, step by step *)

Lemma filter_idem {A} (f : A -> bool) (l : list A) :
  List.filter f (List.filter f l) = List.filter f l.
Proof. induction l as [|x l IH]; simpl; [reflexivity|]. destruct (f x) eqn:E; simpl; rewrite ?E, IH; reflexivity. Qed.

Lemma cleanup_idem (rid : string) (init : RequestInit) (s : St) :
  cleanup rid init (cleanup rid init s) = cleanup rid init s.
Proof. unfold cleanup; simpl. rewrite delete_delete_eq, filter_idem. reflexivity. Qed.

Section Step.
Variable cfg : RequiredConfig.
Variable requestId : string.
Variable url : string.
Variable init : RequestInit.
Variable fetch : transport.

Lemma retry_loop_step (fuel a : nat) (le : jsval) (s : St) :
  lt_num a (retryAttempts cfg) = true ->
  let s1 := cleanup requestId init (emit (EFetch a url init) s) in
  (exists r, retry_loop cfg requestId url init fetch (S fuel) a le s = (s1, r))
  \/ (exists le', retry_loop cfg requestId url init fetch (S fuel) a le s
                  = retry_loop cfg requestId url init fetch fuel (S a) le' s1)
  \/ (exists le', lt_num_m1 a (retryAttempts cfg) = true
       /\ retry_loop cfg requestId url init fetch (S fuel) a le s
          = retry_loop cfg requestId url init fetch fuel (S a) le' (backoff a s1)).
Proof.
  intros Hlt s1. cbn [retry_loop]. rewrite Hlt. cbn [negb]. subst s1.
  repeat match goal with
         | |- context [match ?x with _ => _ end] => destruct x eqn:?
         end;
    rewrite ?cleanup_idem;
    repeat match goal with
           | H : _ && _ = true |- _ => apply andb_true_iff in H as [? ?]
           end;
    first [ left; eexists; reflexivity
          | right; left; eexists; reflexivity
          | right; right; eexists; split; [first [assumption | reflexivity] | reflexivity] ].
Qed.
End Step.

Lemma lt_num_m1_next (a : nat) (n : jsnum) : lt_num_m1 a n = true -> lt_num (S a) n = true.
Proof.
  destruct n as [q|]; simpl; [|discriminate].
  rewrite !negb_true_iff, <- !not_true_iff_false, !Qle_bool_iff.
  intros H H'. apply H. rewrite Nat2Z.inj_succ, <- Z.add_1_r, inject_Z_plus in H'.
  change (inject_Z 1) with 1%Q in H'. lra.
Qed.

Section Shape.
Variable cfg : RequiredConfig.
Variable requestId : string.
Variable url : string.
Variable init : RequestInit.
Variable fetch : transport.

Lemma retry_loop_shape (fuel a : nat) (le : jsval) (s : St) :
  (attempts_bound (retryAttempts cfg) <= a + fuel)%nat ->
  exists ds,
    trace (fst (retry_loop cfg requestId url init fetch fuel a le s))
      = (trace s ++ attempts_trace url init a ds)%list
    /\ (length ds <= attempts_bound (retryAttempts cfg) - a)%nat
    /\ (ds = [] <-> lt_num a (retryAttempts cfg) = false)
    /\ List.last ds false = false.
Proof.
  revert a le s. induction fuel as [|fuel IH]; intros a le s Hb.
  - assert (Hlt : lt_num a (retryAttempts cfg) = false).
    { apply not_true_iff_false. rewrite attempts_bound_spec. lia. }
    exists []. rewrite retry_loop_stop by exact Hlt.
    simpl. rewrite app_nil_r. repeat split; auto; lia.
  - destruct (lt_num a (retryAttempts cfg)) eqn:Hlt.
    2: { exists []. rewrite retry_loop_stop by exact Hlt.
         simpl. rewrite app_nil_r. repeat split; auto; lia. }
    pose proof (proj1 (attempts_bound_spec _ _) Hlt) as Ha.
    destruct (retry_loop_step cfg requestId url init fetch fuel a le s Hlt)
      as [[r ->] | [[le' ->] | [le' [Hm1 ->]]]].
    + exists [false]. simpl. repeat split; try discriminate; try lia.
    + destruct (IH (S a) le' (cleanup requestId init (emit (EFetch a url init) s)))
        as (ds & Ht & Hl & Hne & Hlast); [lia|].
      exists (false :: ds). rewrite Ht. simpl.
      rewrite <- app_assoc. repeat split; try discriminate; try lia.
      destruct ds; [reflexivity | exact Hlast].
    + destruct (IH (S a) le' (backoff a (cleanup requestId init (emit (EFetch a url init) s))))
        as (ds & Ht & Hl & Hne & Hlast); [lia|].
      assert (Hds : ds <> []).
      { intros E. apply Hne in E. rewrite (lt_num_m1_next a _ Hm1) in E. discriminate. }
      exists (true :: ds). rewrite Ht. simpl.
      rewrite <- !app_assoc. repeat split; try discriminate; try lia.
      destruct ds; [congruence | exact Hlast].
Qed.
End Shape.

Lemma request_shape (cfg : RequiredConfig) (method endpoint : string) (body : jsval)
    (now : Z) (fetch : transport) (s : St) :
  exists ds,
    trace (fst (request cfg method endpoint body now fetch s))
      = (trace s ++ attempts_trace (apiUrl cfg ++ endpoint)
                      (request_init cfg method body (next_ctrl s)) 0 ds)%list
    /\ (length ds <= attempts_bound (retryAttempts cfg))%nat
    /\ (ds <> [] <-> (0 < attempts_bound (retryAttempts cfg))%nat
                    /\ (truthy body && negb (String.eqb method "GET") = true ->
                        json_serialisable body = true))
    /\ List.last ds false = false.
Proof.
  unfold request, request_init.
  assert (Hrun : forall rid u i s1, trace s1 = trace s -> ri_signal i = next_ctrl s ->
    (truthy body && negb (String.eqb method "GET") = true -> json_serialisable body = true) ->
    exists ds,
      trace (fst (retry_loop cfg rid u i fetch (attempts_bound (retryAttempts cfg)) 0 JUndefined s1))
        = (trace s ++ attempts_trace u i 0 ds)%list
      /\ (length ds <= attempts_bound (retryAttempts cfg))%nat
      /\ (ds <> [] <-> (0 < attempts_bound (retryAttempts cfg))%nat
                      /\ (truthy body && negb (String.eqb method "GET") = true ->
                          json_serialisable body = true))
      /\ List.last ds false = false).
  { intros rid u i s1 Hs1 _ Hser.
    destruct (retry_loop_shape cfg rid u i fetch (attempts_bound (retryAttempts cfg)) 0 JUndefined s1)
      as (ds & Ht & Hl & Hne & Hlast); [lia|].
    exists ds. rewrite Ht, Hs1. split; [reflexivity|]. split; [lia|]. split; [|exact Hlast].
    split.
    - intros Hds. split; [|exact Hser].
      destruct (lt_num 0 (retryAttempts cfg)) eqn:E; [apply attempts_bound_spec in E; lia|].
      exfalso; apply Hds, Hne; reflexivity.
    - intros [H0 _] E. apply Hne in E. apply not_true_iff_false in E.
      apply E, attempts_bound_spec, H0. }
  destruct (truthy body && negb (String.eqb method "GET")) eqn:Hb;
    [destruct (json_serialisable body) eqn:Hj|].
  - apply Hrun; auto.
  - exists []. simpl. rewrite app_nil_r. split; [reflexivity|]. split; [lia|].
    split; [|reflexivity]. split.
    + intros H; exfalso; apply H; reflexivity.
    + intros [_ H]. specialize (H eq_refl). congruence.
  - apply Hrun; auto; discriminate.
Qed.

(** *** Emails: lower-casing and trimming *)

Lemma list_ascii_toLowerCase (s : string) :
  list_ascii_of_string (toLowerCase s) = map ascii_lower (list_ascii_of_string s).
Proof. induction s as [|c s IH]; simpl; [reflexivity|]. rewrite IH. reflexivity. Qed.

Lemma ascii_lower_idem (c : ascii) : ascii_lower (ascii_lower c) = ascii_lower c.
Proof. destruct c as [[] [] [] [] [] [] [] []]; reflexivity. Qed.

Lemma toLowerCase_idem (s : string) : toLowerCase (toLowerCase s) = toLowerCase s.
Proof. induction s as [|c s IH]; simpl; [reflexivity|]. rewrite ascii_lower_idem, IH. reflexivity. Qed.

Lemma toLowerCase_empty (s : string) : String.eqb (toLowerCase s) "" = String.eqb s "".
Proof. destruct s; reflexivity. Qed.

Lemma local_char_lower (c : ascii) :
  atom_matches local_char (ascii_lower c) = atom_matches local_char c.
Proof. destruct c as [[] [] [] [] [] [] [] []]; reflexivity. Qed.

Lemma lit_at_lower (c : ascii) : atom_matches (ALit "@") (ascii_lower c) = atom_matches (ALit "@") c.
Proof. destruct c as [[] [] [] [] [] [] [] []]; reflexivity. Qed.

Lemma lit_dot_lower (c : ascii) : atom_matches (ALit ".") (ascii_lower c) = atom_matches (ALit ".") c.
Proof. destruct c as [[] [] [] [] [] [] [] []]; reflexivity. Qed.

Section MapMatch.
Variable f : ascii -> ascii.

Lemma plus_match_map (a : atom) (s : list ascii) (k1 k2 : list ascii -> bool) :
  (forall c, atom_matches a (f c) = atom_matches a c) ->
  (forall r, k1 (map f r) = k2 r) ->
  plus_match a (map f s) k1 = plus_match a s k2.
Proof.
  intros Ha Hk. induction s as [|c s IH]; simpl; [reflexivity|].
  rewrite Ha, IH, Hk. reflexivity.
Qed.

Lemma match_pieces_map (ps : list (atom * quant)) (s : list ascii) (k1 k2 : list ascii -> bool) :
  Forall (fun p => forall c, atom_matches (fst p) (f c) = atom_matches (fst p) c) ps ->
  (forall r, k1 (map f r) = k2 r) ->
  match_pieces ps (map f s) k1 = match_pieces ps s k2.
Proof.
  intros Hps. revert s k1 k2. induction Hps as [|[a q] ps Ha _ IH]; intros s k1 k2 Hk; simpl.
  - apply Hk.
  - destruct q.
    + destruct s as [|c s]; simpl; [reflexivity|]. rewrite Ha, (IH s k1 k2 Hk). reflexivity.
    + apply plus_match_map; [exact Ha|]. intros r. apply IH, Hk.
Qed.
End MapMatch.

Lemma isValidEmail_toLowerCase (e : string) : isValidEmail (toLowerCase e) = isValidEmail e.
Proof.
  unfold isValidEmail, regex_test. cbn [anchored_start anchored_end].
  rewrite list_ascii_toLowerCase. apply match_pieces_map.
  - repeat constructor; simpl; [apply local_char_lower | apply lit_at_lower | apply local_char_lower
                               | apply lit_dot_lower | apply local_char_lower].
  - intros [|c r]; reflexivity.
Qed.

Lemma valid_no_whitespace (e : string) : isValidEmail e = true -> has_whitespace e = false.
Proof.
  intros Hv. destruct (has_whitespace e) eqn:Hw; [|reflexivity].
  rewrite (malformed_invalid e (or_introl Hw)) in Hv. discriminate.
Qed.

Lemma trim_start_no_ws (s : string) :
  existsb is_js_space (list_ascii_of_string s) = false -> trim_start s = s.
Proof.
  destruct s as [|c s]; simpl; [reflexivity|].
  intros H. apply orb_false_iff in H as [H _]. rewrite H. reflexivity.
Qed.

Lemma existsb_rev {A} (f : A -> bool) (l : list A) : existsb f (rev l) = existsb f l.
Proof.
  induction l as [|x l IH]; simpl; [reflexivity|].
  rewrite existsb_app, IH. simpl. rewrite orb_false_r, orb_comm. reflexivity.
Qed.

Lemma trim_no_ws (s : string) :
  existsb is_js_space (list_ascii_of_string s) = false -> trim s = s.
Proof.
  intros H. unfold trim. rewrite (trim_start_no_ws s H).
  unfold string_rev. rewrite trim_start_no_ws.
  - rewrite list_ascii_of_string_of_list_ascii, rev_involutive, string_of_list_ascii_of_string.
    reflexivity.
  - rewrite list_ascii_of_string_of_list_ascii, existsb_rev. exact H.
Qed.

Lemma valid_email_normalised (e : string) :
  isValidEmail e = true ->
  trim (toLowerCase e) = toLowerCase e /\ isValidEmail (toLowerCase e) = true.
Proof.
  intros Hv. assert (Hl : isValidEmail (toLowerCase e) = true)
    by (rewrite isValidEmail_toLowerCase; exact Hv).
  split; [|exact Hl]. apply trim_no_ws, (valid_no_whitespace _ Hl).
Qed.

(** X8: [checkEmailExists] and [createWaitlyEntry] do not distinguish
    emails that differ only in letter case: on the lower-cased email
    they make the same calls, end in the same state and give the same
    result, whether the email is valid or not. *)
Theorem email_case_insensitive (cfg : RequiredConfig) (e : string) (ref : option string)
    (u md : jsval) (now : Z) (fetch : transport) (s : St) :
  checkEmailExists cfg (toLowerCase e) now fetch s = checkEmailExists cfg e now fetch s
  /\ createWaitlyEntry cfg (mkEntry (Some (toLowerCase e)) ref u md) now fetch s
     = createWaitlyEntry cfg (mkEntry (Some e) ref u md) now fetch s.
Proof.
  split.
  - unfold checkEmailExists. rewrite isValidEmail_toLowerCase, toLowerCase_idem. reflexivity.
  - unfold createWaitlyEntry, opt_str_falsy, str_or. cbn [email referredByCode utm metadata].
    rewrite toLowerCase_empty. destruct (String.eqb e ""); [reflexivity|].
    rewrite isValidEmail_toLowerCase, toLowerCase_idem. reflexivity.
Qed.

Lemma filter_fresh (c : nat) (l : list nat) :
  Forall (fun t => t < c)%nat l -> List.filter (fun t => negb (Nat.eqb t c)) l = l.
Proof.
  induction 1 as [|t l Ht _ IH]; simpl; [reflexivity|].
  destruct (Nat.eqb t c) eqn:E; [apply Nat.eqb_eq in E; lia|]. simpl. rewrite IH. reflexivity.
Qed.

Lemma request_first_ok (cfg : RequiredConfig) (method endpoint : string)
    (body : jsval) (now : Z) (fetch : transport) (s : St)
    (status : Z) (text : string) (v : jsval) :
  lt_num 0 (retryAttempts cfg) = true ->
  (truthy body && negb (String.eqb method "GET") = true -> json_serialisable body = true) ->
  Forall (fun t => t < next_ctrl s)%nat (armed s) ->
  fetch 0%nat = FResolve status text (Resolved v) -> response_ok status = true ->
  request cfg method endpoint body now fetch s
  = (mkSt (delete (method ++ "-" ++ endpoint ++ "-" ++ z_to_dec now) (abortControllers s))
          (S (next_ctrl s)) (armed s) (aborted s)
          (trace s ++ [EFetch 0 (apiUrl cfg ++ endpoint)
                         (request_init cfg method body (next_ctrl s))])%list,
     Resolved v).
Proof.
  intros Hlt Hser Harmed Hf Hok.
  pose proof (proj1 (attempts_bound_spec _ _) Hlt) as Hb.
  unfold request, request_init.
  destruct (attempts_bound (retryAttempts cfg)) as [|fuel]; [lia|].
  assert (Hrun : forall b, retry_loop cfg (method ++ "-" ++ endpoint ++ "-" ++ z_to_dec now)
      (apiUrl cfg ++ endpoint) (mkInit method (request_headers cfg) b (next_ctrl s)) fetch
      (S fuel) 0 JUndefined
      (mkSt (<[method ++ "-" ++ endpoint ++ "-" ++ z_to_dec now := next_ctrl s]> (abortControllers s))
            (S (next_ctrl s)) (next_ctrl s :: armed s) (aborted s) (trace s))
    = (mkSt (delete (method ++ "-" ++ endpoint ++ "-" ++ z_to_dec now) (abortControllers s))
          (S (next_ctrl s)) (armed s) (aborted s)
          (trace s ++ [EFetch 0 (apiUrl cfg ++ endpoint)
                         (mkInit method (request_headers cfg) b (next_ctrl s))])%list,
       Resolved v)).
  { intros b. cbn [retry_loop]. rewrite Hlt. cbn [negb]. rewrite Hf, Hok. cbn [negb].
    unfold cleanup, emit, ctrl. cbn [abortControllers next_ctrl armed aborted trace ri_signal].
    rewrite delete_insert_eq. cbn [List.filter]. rewrite Nat.eqb_refl. cbn [negb].
    rewrite filter_fresh by exact Harmed. reflexivity. }
  destruct (truthy body && negb (String.eqb method "GET")) eqn:Hb2.
  - rewrite (Hser eq_refl). apply Hrun.
  - apply Hrun.
Qed.

Lemma lt_num_m1_succ (a : nat) (n : jsnum) : lt_num_m1 a n = lt_num (S a) n.
Proof.
  destruct n as [q|]; simpl; [|reflexivity]. f_equal.
  apply eq_true_iff_eq. rewrite !Qle_bool_iff.
  rewrite Nat2Z.inj_succ, <- Z.add_1_r, inject_Z_plus. change (inject_Z 1) with 1%Q.
  split; intros; lra.
Qed.

Lemma obj_lookup_set (k k' : string) (x : jsval) (ps : list (string * jsval)) :
  obj_lookup k (obj_set k' x ps) = if String.eqb k k' then Some x else obj_lookup k ps.
Proof.
  induction ps as [|[k'' y] ps IH]; simpl; [reflexivity|].
  destruct (String.eqb_spec k' k'') as [->|Hne]; simpl.
  - destruct (String.eqb k k''); reflexivity.
  - rewrite IH. destruct (String.eqb_spec k k'') as [->|]; [|reflexivity].
    destruct (String.eqb_spec k'' k') as [->|]; [congruence|reflexivity].
Qed.

Lemma obj_lookup_spread_absent (k : string) (ps base : list (string * jsval)) :
  obj_lookup k ps = None ->
  obj_lookup k (obj_spread base (JObject ps)) = obj_lookup k base.
Proof.
  unfold obj_spread; cbn [spread_props]. revert base.
  induction ps as [|[k' x] ps IH]; intros base H; simpl; [reflexivity|].
  simpl in H. destruct (String.eqb k k') eqn:E; [discriminate|].
  rewrite IH by exact H. rewrite obj_lookup_set, E. reflexivity.
Qed.


Section Persistent.
Variable cfg : RequiredConfig.
Variable requestId : string.
Variable url : string.
Variable init : RequestInit.
Variable fetch : transport.

Lemma retry_loop_network (fuel a : nat) (le err : jsval) (s : St) :
  lt_num a (retryAttempts cfg) = true ->
  fails_with (fetch a) err -> network_like err ->
  let s1 := cleanup requestId init (emit (EFetch a url init) s) in
  retry_loop cfg requestId url init fetch (S fuel) a le s
  = if lt_num (S a) (retryAttempts cfg)
    then retry_loop cfg requestId url init fetch fuel (S a) err (backoff a s1)
    else retry_loop cfg requestId url init fetch fuel (S a) err s1.
Proof.
  intros Hlt Hf (nm & Hn & Hab & Hsc) s1. unfold prop in Hsc.
  cbn [retry_loop]. rewrite Hlt. cbn [negb]. rewrite <- lt_num_m1_succ.
  destruct Hf as [-> | (st & txt & Hok & ->)].
  - rewrite Hn, Hab, Hsc. cbn [negb]. rewrite andb_true_r. reflexivity.
  - rewrite Hok. cbn [negb]. rewrite cleanup_idem, Hn, Hab, Hsc. cbn [negb].
    rewrite andb_true_r. reflexivity.
Qed.

Lemma retry_loop_client_error (fuel a : nat) (le : jsval) (s : St)
    (st : Z) (txt : string) (ps : list (string * jsval)) :
  lt_num a (retryAttempts cfg) = true ->
  fetch a = FResolve st txt (Resolved (JObject ps)) -> (400 <= st < 500)%Z ->
  obj_lookup "name" ps = None -> obj_lookup "statusCode" ps = None ->
  retry_loop cfg requestId url init fetch (S fuel) a le s
  = retry_loop cfg requestId url init fetch fuel (S a)
      (JObject (obj_spread [("statusCode", jnum_Z st)] (JObject ps)))
      (cleanup requestId init (emit (EFetch a url init) s)).
Proof.
  intros Hlt Hf Hst Hn Hsc.
  cbn [retry_loop]. rewrite Hlt. cbn [negb]. rewrite Hf.
  assert (Hok : response_ok st = false).
  { unfold response_ok. apply andb_false_iff. right. apply Z.leb_gt. lia. }
  assert (H4 : ((400 <=? st)%Z && (st <? 500)%Z) = true).
  { apply andb_true_iff. split; [apply Z.leb_le | apply Z.ltb_lt]; lia. }
  rewrite Hok, H4. cbn [negb get]. rewrite cleanup_idem.
  rewrite (obj_lookup_spread_absent "name" ps _ Hn).
  rewrite (obj_lookup_spread_absent "statusCode" ps _ Hsc). cbn [obj_lookup String.eqb Ascii.eqb Bool.eqb].
  cbn [js_eq_str]. unfold jnum_Z. cbn [truthy].
  assert (Hq : Qeq_bool (inject_Z st) 0 = false).
  { apply not_true_iff_false. rewrite Qeq_bool_iff. unfold Qeq. simpl. lia. }
  rewrite Hq. cbn [negb]. rewrite andb_false_r. reflexivity.
Qed.
End Persistent.

(** [request] once the body, if any, has been serialised: the loop from
    attempt 0 on the state with the new controller registered and armed. *)
Lemma request_run (cfg : RequiredConfig) (method endpoint : string) (body : jsval)
    (now : Z) (fetch : transport) (s : St) :
  (truthy body && negb (String.eqb method "GET") = true -> json_serialisable body = true) ->
  request cfg method endpoint body now fetch s
  = retry_loop cfg (method ++ "-" ++ endpoint ++ "-" ++ z_to_dec now) (apiUrl cfg ++ endpoint)
      (request_init cfg method body (next_ctrl s)) fetch (attempts_bound (retryAttempts cfg))
      0 JUndefined
      (mkSt (<[method ++ "-" ++ endpoint ++ "-" ++ z_to_dec now := next_ctrl s]> (abortControllers s))
            (S (next_ctrl s)) (next_ctrl s :: armed s) (aborted s) (trace s)).
Proof.
  intros Hser. unfold request, request_init.
  destruct (truthy body && negb (String.eqb method "GET")) eqn:Hb; [|reflexivity].
  rewrite (Hser eq_refl). reflexivity.
Qed.

Section PersistentRuns.
Variable cfg : RequiredConfig.
Variable requestId : string.
Variable url : string.
Variable init : RequestInit.
Variable fetch : transport.

Lemma retry_loop_persistent_network (errs : nat -> jsval) :
  (forall i, fails_with (fetch i) (errs i) /\ network_like (errs i)) ->
  forall fuel a le s,
  (a < attempts_bound (retryAttempts cfg))%nat ->
  (attempts_bound (retryAttempts cfg) <= a + fuel)%nat ->
  exists s', retry_loop cfg requestId url init fetch fuel a le s
             = (s', Rejected (errs (attempts_bound (retryAttempts cfg) - 1)%nat))
    /\ trace s' = (trace s ++ attempts_trace url init a
                     (repeat true (attempts_bound (retryAttempts cfg) - a - 1) ++ [false]))%list.
Proof.
  intros Herr fuel. induction fuel as [|fuel IH]; intros a le s Ha Hb; [lia|].
  assert (Hlt : lt_num a (retryAttempts cfg) = true) by (apply attempts_bound_spec; exact Ha).
  destruct (Herr a) as [Hf Hn].
  rewrite (retry_loop_network cfg requestId url init fetch fuel a le (errs a) s Hlt Hf Hn).
  destruct (lt_num (S a) (retryAttempts cfg)) eqn:E.
  - apply attempts_bound_spec in E.
    destruct (IH (S a) (errs a)
                (backoff a (cleanup requestId init (emit (EFetch a url init) s))) E ltac:(lia))
      as (s' & -> & Ht).
    exists s'. split; [reflexivity|]. rewrite Ht.
    replace (attempts_bound (retryAttempts cfg) - a - 1)%nat
      with (S (attempts_bound (retryAttempts cfg) - S a - 1)) by lia.
    simpl. rewrite <- !app_assoc. reflexivity.
  - rewrite retry_loop_stop by exact E.
    assert (Hs : attempts_bound (retryAttempts cfg) = S a).
    { apply not_true_iff_false in E. rewrite attempts_bound_spec in E. lia. }
    rewrite Hs. replace (S a - 1)%nat with a by lia. replace (S a - a - 1)%nat with 0%nat by lia.
    eexists. split; [reflexivity|]. simpl. reflexivity.
Qed.

Lemma retry_loop_persistent_client_error (st : nat -> Z) (txt : nat -> string)
    (ps : nat -> list (string * jsval)) :
  (forall i, fetch i = FResolve (st i) (txt i) (Resolved (JObject (ps i)))
             /\ (400 <= st i < 500)%Z
             /\ obj_lookup "name" (ps i) = None /\ obj_lookup "statusCode" (ps i) = None) ->
  forall fuel a le s,
  (a < attempts_bound (retryAttempts cfg))%nat ->
  (attempts_bound (retryAttempts cfg) <= a + fuel)%nat ->
  let l := (attempts_bound (retryAttempts cfg) - 1)%nat in
  exists s', retry_loop cfg requestId url init fetch fuel a le s
             = (s', Rejected (JObject (obj_spread [("statusCode", jnum_Z (st l))] (JObject (ps l)))))
    /\ trace s' = (trace s ++ attempts_trace url init a
                     (repeat false (attempts_bound (retryAttempts cfg) - a)))%list.
Proof.
  intros Hfe fuel. induction fuel as [|fuel IH]; intros a le s Ha Hb l; [lia|].
  assert (Hlt : lt_num a (retryAttempts cfg) = true) by (apply attempts_bound_spec; exact Ha).
  destruct (Hfe a) as (Hf & Hst & Hn & Hsc).
  rewrite (retry_loop_client_error cfg requestId url init fetch fuel a le s _ _ _ Hlt Hf Hst Hn Hsc).
  destruct (lt_num (S a) (retryAttempts cfg)) eqn:E.
  - apply attempts_bound_spec in E.
    destruct (IH (S a) (JObject (obj_spread [("statusCode", jnum_Z (st a))] (JObject (ps a))))
                (cleanup requestId init (emit (EFetch a url init) s)) E ltac:(lia))
      as (s' & -> & Ht).
    exists s'. split; [reflexivity|]. rewrite Ht.
    replace (attempts_bound (retryAttempts cfg) - a)%nat
      with (S (attempts_bound (retryAttempts cfg) - S a)) by lia.
    simpl. rewrite <- !app_assoc. reflexivity.
  - rewrite retry_loop_stop by exact E.
    assert (Hs : attempts_bound (retryAttempts cfg) = S a).
    { apply not_true_iff_false in E. rewrite attempts_bound_spec in E. lia. }
    subst l. rewrite Hs. replace (S a - 1)%nat with a by lia. replace (S a - a)%nat with 1%nat by lia.
    eexists. split; [reflexivity|]. simpl. reflexivity.
Qed.
End PersistentRuns.


Lemma total_delay_app (l1 l2 : list event) :
  total_delay (l1 ++ l2) = (total_delay l1 + total_delay l2)%Z.
Proof. induction l1 as [|[] l1 IH]; simpl; rewrite ?IH; lia. Qed.

Lemma count_fetches_attempts (url : string) (init : RequestInit) (a : nat) (ds : list bool) :
  count_fetches (attempts_trace url init a ds) = length ds.
Proof.
  unfold count_fetches. revert a. induction ds as [|[] ds IH]; intros a; simpl; [reflexivity| |];
    f_equal; apply IH.
Qed.

Lemma attempts_trace_delay (url : string) (init : RequestInit) (ds : list bool) :
  forall a, ds <> [] -> List.last ds false = false ->
  (total_delay (attempts_trace url init a ds) + 2 ^ Z.of_nat a * 1000
   <= 2 ^ Z.of_nat (a + length ds - 1) * 1000)%Z.
Proof.
  induction ds as [|d ds IH]; intros a Hne Hl; [congruence|].
  assert (Hp : (0 < 2 ^ Z.of_nat a)%Z) by (apply Z.pow_pos_nonneg; lia).
  destruct ds as [|d' ds'].
  - simpl in Hl. subst d. replace (a + length [false] - 1)%nat with a by (simpl; lia).
    simpl. lia.
  - specialize (IH (S a) ltac:(discriminate) Hl).
    replace (S a + length (d' :: ds') - 1)%nat with (a + length (d' :: ds'))%nat in IH
      by (simpl; lia).
    replace (a + length (d :: d' :: ds') - 1)%nat with (a + length (d' :: ds'))%nat
      by (simpl; lia).
    rewrite Nat2Z.inj_succ, Z.pow_succ_r in IH by lia.
    change (attempts_trace url init a (d :: d' :: ds'))
      with (attempt_events url init a d ++ attempts_trace url init (S a) (d' :: ds'))%list.
    rewrite total_delay_app.
    destruct d; cbn [attempt_events total_delay fold_right app]; lia.
Qed.

Lemma attempts_trace_events (url : string) (init : RequestInit) (a : nat) (ds : list bool) :
  Forall (fun ev => match ev with EFetch _ u i => u = url /\ i = init | EDelay _ => True end)
         (attempts_trace url init a ds).
Proof.
  revert a. induction ds as [|[] ds IH]; intros a; simpl; [constructor| |];
    repeat constructor; auto; apply IH.
Qed.

(** A call of [delay] that both hosts run for its full length. *)
Definition waited_in_full (e : event) : Prop :=
  match e with
  | EDelay ms => node_timeout_ms ms = ms /\ browser_timeout_ms ms = ms
  | EFetch _ _ _ => True
  end.

Lemma attempts_trace_waits (url : string) (init : RequestInit) (ds : list bool) :
  forall a, List.last ds false = false -> (a + length ds <= 23)%nat ->
  Forall waited_in_full (attempts_trace url init a ds).
Proof.
  induction ds as [|d ds IH]; intros a Hl Hlen; cbn [attempts_trace]; [constructor|].
  apply Forall_app. split.
  - unfold attempt_events. constructor; [exact I|]. destruct d; [|constructor].
    destruct ds as [|d' ds']; [simpl in Hl; discriminate|].
    constructor; [|constructor]. apply backoff_waits_full. simpl in Hlen. lia.
  - destruct ds as [|d' ds']; [constructor|]. apply IH; [exact Hl | simpl in *; lia].
Qed.

Lemma retry_loop_fuel0 (cfg : RequiredConfig) (rid url : string) (init : RequestInit)
    (fetch : transport) (a : nat) (le : jsval) (s : St) :
  retry_loop cfg rid url init fetch 0 a le s = (s, Rejected le).
Proof. simpl. destruct (negb _); reflexivity. Qed.

Lemma isValidEmail_nonempty (e : string) : isValidEmail e = true -> String.eqb e "" = false.
Proof. destruct e; [discriminate | reflexivity]. Qed.

(** *** Properties of the operations *)

(** X1: the calls [request] makes are attempts 0, 1, ..., k-1 in order,
    with k at most the number of loop iterations; each attempt calls [fetch]
    on [apiUrl + endpoint] with the same [RequestInit] (the method, the
    merged headers, the body when it is truthy and the method is not GET,
    and the new controller's signal) and is followed by no delay or by one
    delay of [2^i * 1000] ms; the last attempt is never followed by a delay;
    at least one attempt is made exactly when the loop runs at least once
    and serialising the body does not throw; with at most 23 iterations,
    every delay is waited in full by Node and by browsers. *)
Theorem request_attempt_schedule (cfg : RequiredConfig) (method endpoint : string) (body : jsval)
    (now : Z) (fetch : transport) (s : St) :
  exists ds,
    trace (fst (request cfg method endpoint body now fetch s))
      = (trace s ++ attempts_trace (apiUrl cfg ++ endpoint)
                      (request_init cfg method body (next_ctrl s)) 0 ds)%list
    /\ (length ds <= attempts_bound (retryAttempts cfg))%nat
    /\ (ds <> [] <-> (0 < attempts_bound (retryAttempts cfg))%nat
                    /\ (truthy body && negb (String.eqb method "GET") = true ->
                        json_serialisable body = true))
    /\ List.last ds false = false
    /\ ((attempts_bound (retryAttempts cfg) <= 23)%nat ->
        Forall waited_in_full (attempts_trace (apiUrl cfg ++ endpoint)
                                 (request_init cfg method body (next_ctrl s)) 0 ds)).
Proof.
  destruct (request_shape cfg method endpoint body now fetch s) as (ds & Ht & Hl & Hiff & Hlast).
  exists ds. split; [exact Ht|]. split; [exact Hl|]. split; [exact Hiff|]. split; [exact Hlast|].
  intros Hb. apply attempts_trace_waits; [exact Hlast | lia].
Qed.

(** X2: a call of [request] makes at most [ceil(retryAttempts)] calls of
    [fetch] and waits in total at most [(2^(n-1) - 1) * 1000] ms in
    backoff, where [n] is that number of iterations (3000 ms for the
    default 3 attempts). *)
Theorem request_backoff_budget (cfg : RequiredConfig) (method endpoint : string) (body : jsval)
    (now : Z) (fetch : transport) (s : St) :
  exists t, trace (fst (request cfg method endpoint body now fetch s)) = (trace s ++ t)%list
    /\ (count_fetches t <= attempts_bound (retryAttempts cfg))%nat
    /\ (total_delay t <= (2 ^ Z.of_nat (attempts_bound (retryAttempts cfg) - 1) - 1) * 1000)%Z.
Proof.
  destruct (request_shape cfg method endpoint body now fetch s) as (ds & Ht & Hl & _ & Hlast).
  eexists. split; [exact Ht|]. rewrite count_fetches_attempts. split; [exact Hl|].
  set (b := attempts_bound (retryAttempts cfg)) in *.
  destruct ds as [|d ds'].
  - simpl. assert (0 < 2 ^ Z.of_nat (b - 1))%Z by (apply Z.pow_pos_nonneg; lia). lia.
  - pose proof (attempts_trace_delay (apiUrl cfg ++ endpoint)
                  (request_init cfg method body (next_ctrl s)) (d :: ds') 0
                  ltac:(discriminate) Hlast) as H.
    assert (Hm : (2 ^ Z.of_nat (0 + length (d :: ds') - 1) <= 2 ^ Z.of_nat (b - 1))%Z).
    { apply Z.pow_le_mono_r; lia. }
    simpl Z.of_nat in H at 1. rewrite Z.pow_0_r in H. lia.
Qed.

(** X3: when the first attempt answers a 2xx response whose body parses to
    [v], [request] resolves with [v] after exactly one call of [fetch]; the
    request's entry is removed from [abortControllers], its timeout is
    cleared, and a fresh controller number has been used. *)
Theorem request_first_attempt_ok (cfg : RequiredConfig) (method endpoint : string)
    (body : jsval) (now : Z) (fetch : transport) (s : St)
    (status : Z) (text : string) (v : jsval) :
  lt_num 0 (retryAttempts cfg) = true ->
  (truthy body && negb (String.eqb method "GET") = true -> json_serialisable body = true) ->
  Forall (fun t => t < next_ctrl s)%nat (armed s) ->
  fetch 0%nat = FResolve status text (Resolved v) -> response_ok status = true ->
  request cfg method endpoint body now fetch s
  = (mkSt (delete (method ++ "-" ++ endpoint ++ "-" ++ z_to_dec now) (abortControllers s))
          (S (next_ctrl s)) (armed s) (aborted s)
          (trace s ++ [EFetch 0 (apiUrl cfg ++ endpoint)
                         (request_init cfg method body (next_ctrl s))])%list,
     Resolved v).
Proof. exact (request_first_ok cfg method endpoint body now fetch s status text v). Qed.

Lemma request_first_attempt_ok_witness :
  request client0 "GET" "/x" JUndefined 7 t_count st0
  = (mkSt (delete "GET-/x-7" ∅) 1 [] []
          [EFetch 0 "https://www.gowaitly.com/x" (request_init client0 "GET" JUndefined 0)],
     Resolved (JObject [("count", jnum_Z 42)])).
Proof.
  apply (request_first_attempt_ok client0 "GET" "/x" JUndefined 7 t_count st0 200 "OK");
    [reflexivity | discriminate | constructor | reflexivity | reflexivity].
Defined.

(** X4: when the first attempt answers a 2xx JSON object, the count
    operation has made one GET to [apiUrl/api/waitlists/<id>/count] without
    a body, and returns the object's [totalEntries] if it has that key, else
    its [count] ([undefined] when absent). *)
Theorem getWaitlyEntriesCount_first_ok (cfg : RequiredConfig) (now : Z) (fetch : transport)
    (s : St) (status : Z) (text : string) (ps : list (string * jsval)) :
  lt_num 0 (retryAttempts cfg) = true ->
  Forall (fun t => t < next_ctrl s)%nat (armed s) ->
  fetch 0%nat = FResolve status text (Resolved (JObject ps)) -> response_ok status = true ->
  trace (fst (getWaitlyEntriesCount cfg now fetch s))
    = (trace s ++ [EFetch 0 (apiUrl cfg ++ "/api/waitlists/" ++ waitlistId cfg ++ "/count")
                     (mkInit "GET" (request_headers cfg) None (next_ctrl s))])%list
  /\ snd (getWaitlyEntriesCount cfg now fetch s)
     = OpReturn (match obj_lookup "totalEntries" ps with
                 | Some x => x
                 | None => match obj_lookup "count" ps with Some x => x | None => JUndefined end
                 end).
Proof.
  intros Hlt Harmed Hf Hok. unfold getWaitlyEntriesCount.
  rewrite (request_first_ok cfg "GET" _ JUndefined now fetch s status text _ Hlt
             ltac:(discriminate) Harmed Hf Hok).
  split; [reflexivity|]. cbn [snd]. unfold prop, get.
  destruct (obj_lookup "totalEntries" ps); reflexivity.
Qed.

Lemma getWaitlyEntriesCount_first_ok_witness :
  trace (fst (getWaitlyEntriesCount client0 7 t_count st0))
    = [EFetch 0 ("https://www.gowaitly.com" ++ "/api/waitlists/" ++ "wl1" ++ "/count")
         (mkInit "GET" (request_headers client0) None 0)]
  /\ snd (getWaitlyEntriesCount client0 7 t_count st0) = OpReturn (jnum_Z 42).
Proof.
  apply (getWaitlyEntriesCount_first_ok client0 7 t_count st0 200 "OK" [("count", jnum_Z 42)]);
    [reflexivity | constructor | reflexivity | reflexivity].
Defined.

(** X5: for a valid email, when the first attempt answers a 2xx JSON
    object, [checkEmailExists] has made one POST to
    [apiUrl/api/waitlists/<id>/check] with body [{email: e.toLowerCase()}]
    and returns the object's [exists] property ([undefined] when absent). *)
Theorem checkEmailExists_first_ok (cfg : RequiredConfig) (e : string) (now : Z)
    (fetch : transport) (s : St) (status : Z) (text : string) (ps : list (string * jsval)) :
  isValidEmail e = true ->
  lt_num 0 (retryAttempts cfg) = true ->
  Forall (fun t => t < next_ctrl s)%nat (armed s) ->
  fetch 0%nat = FResolve status text (Resolved (JObject ps)) -> response_ok status = true ->
  trace (fst (checkEmailExists cfg e now fetch s))
    = (trace s ++ [EFetch 0 (apiUrl cfg ++ "/api/waitlists/" ++ waitlistId cfg ++ "/check")
                     (mkInit "POST" (request_headers cfg)
                        (Some (JObject [("email", JString (toLowerCase e))])) (next_ctrl s))])%list
  /\ snd (checkEmailExists cfg e now fetch s)
     = OpReturn (match obj_lookup "exists" ps with Some x => x | None => JUndefined end).
Proof.
  intros Hv Hlt Harmed Hf Hok. unfold checkEmailExists. rewrite Hv. cbn [negb].
  rewrite (proj1 (valid_email_normalised e Hv)).
  rewrite (request_first_ok cfg "POST" _ (JObject [("email", JString (toLowerCase e))])
             now fetch s status text _ Hlt ltac:(reflexivity) Harmed Hf Hok).
  split; reflexivity.
Qed.

Lemma checkEmailExists_first_ok_witness :
  trace (fst (checkEmailExists client0 "User@Example.com" 7 t_exists st0))
    = [EFetch 0 ("https://www.gowaitly.com" ++ "/api/waitlists/" ++ "wl1" ++ "/check")
         (mkInit "POST" (request_headers client0)
            (Some (JObject [("email", JString (toLowerCase "User@Example.com"))])) 0)]
  /\ snd (checkEmailExists client0 "User@Example.com" 7 t_exists st0) = OpReturn (JBool true).
Proof.
  apply (checkEmailExists_first_ok client0 "User@Example.com" 7 t_exists st0 200 "OK"
           [("exists", JBool true)]);
    [reflexivity | reflexivity | constructor | reflexivity | reflexivity].
Defined.

(** X6: for an entry with a valid email and serialisable [utm] and
    [metadata], when the first attempt answers 2xx with JSON [v],
    [createWaitlyEntry] has made one POST to
    [apiUrl/api/waitlists/<id>/entries] with the lower-cased email and the
    entry's other fields, and returns [v] unchanged. *)
Theorem createWaitlyEntry_first_ok (cfg : RequiredConfig) (entry : WaitlyEntry) (e : string)
    (now : Z) (fetch : transport) (s : St) (status : Z) (text : string) (v : jsval) :
  email entry = Some e -> isValidEmail e = true ->
  json_serialisable (utm entry) = true -> json_serialisable (metadata entry) = true ->
  lt_num 0 (retryAttempts cfg) = true ->
  Forall (fun t => t < next_ctrl s)%nat (armed s) ->
  fetch 0%nat = FResolve status text (Resolved v) -> response_ok status = true ->
  trace (fst (createWaitlyEntry cfg entry now fetch s))
    = (trace s ++ [EFetch 0 (apiUrl cfg ++ "/api/waitlists/" ++ waitlistId cfg ++ "/entries")
                     (mkInit "POST" (request_headers cfg)
                        (Some (JObject [("email", JString (toLowerCase e));
                                        ("referredByCode", opt_string (referredByCode entry));
                                        ("utm", utm entry); ("metadata", metadata entry)]))
                        (next_ctrl s))])%list
  /\ snd (createWaitlyEntry cfg entry now fetch s) = OpReturn v.
Proof.
  intros He Hv Hu Hm Hlt Harmed Hf Hok. unfold createWaitlyEntry.
  rewrite He. unfold opt_str_falsy, str_or. rewrite (isValidEmail_nonempty e Hv), Hv. cbn [negb].
  rewrite (proj1 (valid_email_normalised e Hv)).
  rewrite (request_first_ok cfg "POST" _ _ now fetch s status text _ Hlt) by
    first [ exact Harmed | exact Hf | exact Hok
          | intros _; simpl; rewrite Hu, Hm; destruct (referredByCode entry); reflexivity ].
  split; reflexivity.
Qed.

Lemma createWaitlyEntry_first_ok_witness :
  trace (fst (createWaitlyEntry client0 entry_meta 7 t_exists st0))
    = [EFetch 0 ("https://www.gowaitly.com" ++ "/api/waitlists/" ++ "wl1" ++ "/entries")
         (mkInit "POST" (request_headers client0)
            (Some (JObject [("email", JString (toLowerCase "User@Example.com"));
                            ("referredByCode", opt_string (referredByCode entry_meta));
                            ("utm", utm entry_meta); ("metadata", metadata entry_meta)])) 0)]
  /\ snd (createWaitlyEntry client0 entry_meta 7 t_exists st0)
     = OpReturn (JObject [("exists", JBool true)]).
Proof.
  apply (createWaitlyEntry_first_ok client0 entry_meta "User@Example.com" 7 t_exists st0 200 "OK");
    first [reflexivity | constructor].
Defined.

(** X7: for an email that passes [isValidEmail], [trim] after
    [toLowerCase] only lower-cases it (it has no whitespace to trim), and
    the lower-cased email still passes [isValidEmail]. *)
Theorem sent_email_normalised (e : string) :
  isValidEmail e = true ->
  trim (toLowerCase e) = toLowerCase e /\ isValidEmail (toLowerCase e) = true.
Proof. exact (valid_email_normalised e). Qed.

Lemma sent_email_normalised_witness :
  trim (toLowerCase "User@Example.COM") = toLowerCase "User@Example.COM"
  /\ isValidEmail (toLowerCase "User@Example.COM") = true.
Proof. apply sent_email_normalised. reflexivity. Defined.

(** X9: when every attempt fails like a network error ([fetch] rejects, or
    a 2xx body does not parse, with an error that is not an AbortError and
    has no truthy statusCode), [request] makes every loop iteration: n
    attempts, a call [delay(2^i * 1000)] after each but the last, and
    throws the error of the last attempt; with n at most 23, every delay is
    waited in full by Node and by browsers. *)
Theorem request_persistent_network_failure (cfg : RequiredConfig) (method endpoint : string)
    (body : jsval) (now : Z) (fetch : transport) (s : St) (errs : nat -> jsval) :
  (forall i, fails_with (fetch i) (errs i) /\ network_like (errs i)) ->
  (0 < attempts_bound (retryAttempts cfg))%nat ->
  (truthy body && negb (String.eqb method "GET") = true -> json_serialisable body = true) ->
  exists s', request cfg method endpoint body now fetch s
             = (s', Rejected (errs (attempts_bound (retryAttempts cfg) - 1)%nat))
    /\ trace s' = (trace s ++ attempts_trace (apiUrl cfg ++ endpoint)
                     (request_init cfg method body (next_ctrl s)) 0
                     (repeat true (attempts_bound (retryAttempts cfg) - 1) ++ [false]))%list
    /\ ((attempts_bound (retryAttempts cfg) <= 23)%nat ->
        Forall waited_in_full
          (attempts_trace (apiUrl cfg ++ endpoint) (request_init cfg method body (next_ctrl s)) 0
             (repeat true (attempts_bound (retryAttempts cfg) - 1) ++ [false]))).
Proof.
  intros Herr Hb Hser. rewrite (request_run cfg method endpoint body now fetch s Hser).
  destruct (retry_loop_persistent_network cfg (method ++ "-" ++ endpoint ++ "-" ++ z_to_dec now) (apiUrl cfg ++ endpoint)
              (request_init cfg method body (next_ctrl s)) fetch errs Herr
              (attempts_bound (retryAttempts cfg)) 0 JUndefined
              (mkSt (<[method ++ "-" ++ endpoint ++ "-" ++ z_to_dec now := next_ctrl s]>
                      (abortControllers s)) (S (next_ctrl s)) (next_ctrl s :: armed s)
                    (aborted s) (trace s)) Hb ltac:(lia)) as (s' & Hr & Ht).
  exists s'. rewrite Hr, Ht, Nat.sub_0_r. split; [reflexivity | split; [reflexivity|]].
  intros Hb23. apply attempts_trace_waits; [apply List.last_last|].
  rewrite length_app, repeat_length. simpl. lia.
Qed.

Lemma request_persistent_network_failure_witness :
  exists s', request client0 "GET" "/x" JUndefined 7 t_net st0 = (s', Rejected net_error)
    /\ trace s' = (trace st0 ++ attempts_trace ("https://www.gowaitly.com" ++ "/x")
                     (request_init client0 "GET" JUndefined 0) 0 ([true; true] ++ [false]))%list
    /\ ((attempts_bound (retryAttempts client0) <= 23)%nat ->
        Forall waited_in_full
          (attempts_trace ("https://www.gowaitly.com" ++ "/x") (request_init client0 "GET" JUndefined 0) 0
             ([true; true] ++ [false]))).
Proof.
  apply (request_persistent_network_failure client0 "GET" "/x" JUndefined 7 t_net st0
           (fun _ => net_error)).
  - intros i. split; [left; reflexivity|].
    exists (JString "TypeError"). split; [reflexivity | split; reflexivity].
  - vm_compute. lia.
  - discriminate.
Defined.

(** X10: when every attempt answers a 4xx JSON object without [name] or
    [statusCode] keys, [request] makes all n attempts back to back with no
    delay and throws [{statusCode: status, ...body}] of the last response. *)
Theorem request_persistent_client_error (cfg : RequiredConfig) (method endpoint : string)
    (body : jsval) (now : Z) (fetch : transport) (s : St)
    (st : nat -> Z) (txt : nat -> string) (ps : nat -> list (string * jsval)) :
  (forall i, fetch i = FResolve (st i) (txt i) (Resolved (JObject (ps i)))
             /\ (400 <= st i < 500)%Z
             /\ obj_lookup "name" (ps i) = None /\ obj_lookup "statusCode" (ps i) = None) ->
  (0 < attempts_bound (retryAttempts cfg))%nat ->
  (truthy body && negb (String.eqb method "GET") = true -> json_serialisable body = true) ->
  let l := (attempts_bound (retryAttempts cfg) - 1)%nat in
  exists s', request cfg method endpoint body now fetch s
             = (s', Rejected (JObject (obj_spread [("statusCode", jnum_Z (st l))] (JObject (ps l)))))
    /\ trace s' = (trace s ++ attempts_trace (apiUrl cfg ++ endpoint)
                     (request_init cfg method body (next_ctrl s)) 0
                     (repeat false (attempts_bound (retryAttempts cfg))))%list.
Proof.
  intros Hfe Hb Hser l. rewrite (request_run cfg method endpoint body now fetch s Hser).
  destruct (retry_loop_persistent_client_error cfg (method ++ "-" ++ endpoint ++ "-" ++ z_to_dec now) (apiUrl cfg ++ endpoint)
              (request_init cfg method body (next_ctrl s)) fetch st txt ps Hfe
              (attempts_bound (retryAttempts cfg)) 0 JUndefined
              (mkSt (<[method ++ "-" ++ endpoint ++ "-" ++ z_to_dec now := next_ctrl s]>
                      (abortControllers s)) (S (next_ctrl s)) (next_ctrl s :: armed s)
                    (aborted s) (trace s)) Hb ltac:(lia)) as (s' & Hr & Ht).
  exists s'. rewrite Hr, Ht, Nat.sub_0_r. split; reflexivity.
Qed.

Lemma request_persistent_client_error_witness :
  exists s', request client0 "GET" "/x" JUndefined 7 t404 st0
             = (s', Rejected (JObject (obj_spread [("statusCode", jnum_Z 404)] (JObject []))))
    /\ trace s' = (trace st0 ++ attempts_trace ("https://www.gowaitly.com" ++ "/x")
                     (request_init client0 "GET" JUndefined 0) 0 [false; false; false])%list.
Proof.
  apply (request_persistent_client_error client0 "GET" "/x" JUndefined 7 t404 st0
           (fun _ => 404%Z) (fun _ => "Not Found") (fun _ => [])).
  - intros i. repeat split; lia.
  - vm_compute. lia.
  - discriminate.
Defined.

(** X11: after any attempt that runs, whether the loop stops or goes on to
    the next attempt, the request's entry has been removed from
    [abortControllers] and its timeout cleared: every retry runs with no
    timeout armed and no entry that [cancelAllRequests] could find. *)
Theorem retry_runs_without_timeout (cfg : RequiredConfig) (requestId url : string)
    (init : RequestInit) (fetch : transport) (fuel a : nat) (le : jsval) (s : St) :
  lt_num a (retryAttempts cfg) = true ->
  exists s1, abortControllers s1 = delete requestId (abortControllers s)
    /\ ~ In (ri_signal init) (armed s1)
    /\ ((exists r, retry_loop cfg requestId url init fetch (S fuel) a le s = (s1, r))
        \/ (exists le', retry_loop cfg requestId url init fetch (S fuel) a le s
                        = retry_loop cfg requestId url init fetch fuel (S a) le' s1)).
Proof.
  intros Hlt.
  assert (Hc : forall s0, abortControllers (cleanup requestId init s0)
                          = delete requestId (abortControllers s0)
                          /\ ~ In (ri_signal init) (armed (cleanup requestId init s0))).
  { intros s0. split; [reflexivity|]. unfold cleanup, ctrl; cbn [armed].
    rewrite filter_In, Nat.eqb_refl. intros [_ H]. discriminate. }
  destruct (retry_loop_step cfg requestId url init fetch fuel a le s Hlt)
    as [[r Hr] | [[le' Hr] | [le' [_ Hr]]]].
  - exists (cleanup requestId init (emit (EFetch a url init) s)).
    destruct (Hc (emit (EFetch a url init) s)) as [H1 H2].
    split; [exact H1|]. split; [exact H2|]. left. exists r. exact Hr.
  - exists (cleanup requestId init (emit (EFetch a url init) s)).
    destruct (Hc (emit (EFetch a url init) s)) as [H1 H2].
    split; [exact H1|]. split; [exact H2|]. right. exists le'. exact Hr.
  - exists (backoff a (cleanup requestId init (emit (EFetch a url init) s))).
    destruct (Hc (emit (EFetch a url init) s)) as [H1 H2].
    split; [exact H1|]. split; [exact H2|]. right. exists le'. exact Hr.
Qed.

Lemma retry_runs_without_timeout_witness :
  exists s1, abortControllers s1 = delete "POST-/x-7" (abortControllers st0)
    /\ ~ In (ri_signal init0) (armed s1)
    /\ ((exists r, retry_loop client0 "POST-/x-7" "https://www.gowaitly.com/x" init0 t500_500_ok
                     3 0 JUndefined st0 = (s1, r))
        \/ (exists le', retry_loop client0 "POST-/x-7" "https://www.gowaitly.com/x" init0 t500_500_ok
                          3 0 JUndefined st0
                        = retry_loop client0 "POST-/x-7" "https://www.gowaitly.com/x" init0
                            t500_500_ok 2 1 le' s1)).
Proof. apply retry_runs_without_timeout. reflexivity. Defined.

(** X12: [request] leaves the [abortControllers] entries of every other
    request id unchanged; its own id is absent afterwards when the loop
    made an attempt, even if another call had registered the same id
    (same method, endpoint and millisecond); it stays mapped to the new
    controller when the loop makes no iteration or [JSON.stringify] throws. *)
Theorem request_registry (cfg : RequiredConfig) (method endpoint : string) (body : jsval)
    (now : Z) (fetch : transport) (s : St) :
  let rid := method ++ "-" ++ endpoint ++ "-" ++ z_to_dec now in
  let m := abortControllers (fst (request cfg method endpoint body now fetch s)) in
  (forall k, k <> rid -> m !! k = abortControllers s !! k)
  /\ ((0 < attempts_bound (retryAttempts cfg))%nat ->
      (truthy body && negb (String.eqb method "GET") = true -> json_serialisable body = true) ->
      m !! rid = None)
  /\ (attempts_bound (retryAttempts cfg) = 0%nat
      \/ (truthy body && negb (String.eqb method "GET") = true /\ json_serialisable body = false) ->
      m !! rid = Some (next_ctrl s)).
Proof.
  intros rid m. subst rid m. split; [|split].
  - intros k Hk. unfold request.
    destruct (truthy body && negb (String.eqb method "GET"));
      [destruct (json_serialisable body)|]; cbn [fst];
      try match goal with
      | |- context [retry_loop ?c ?r ?u ?i ?f ?fu ?a ?le ?s1] =>
          destruct (retry_loop_registry c r u i f fu a le s1) as [-> | ->]
      end; cbn [abortControllers];
      rewrite ?lookup_delete_ne, lookup_insert_ne by congruence; reflexivity.
  - intros Hb Hser. rewrite (request_run cfg method endpoint body now fetch s Hser).
    assert (Hlt : lt_num 0 (retryAttempts cfg) = true) by (apply attempts_bound_spec; exact Hb).
    destruct (attempts_bound (retryAttempts cfg)) as [|fuel]; [lia|].
    rewrite retry_loop_deregisters by exact Hlt. cbn [abortControllers].
    apply lookup_delete_eq.
  - intros H. unfold request.
    destruct H as [H0 | [Hb Hj]].
    + rewrite H0.
      destruct (truthy body && negb (String.eqb method "GET"));
        [destruct (json_serialisable body)|]; rewrite ?retry_loop_fuel0; cbn [fst abortControllers];
        apply lookup_insert_eq.
    + rewrite Hb, Hj. cbn [fst abortControllers]. apply lookup_insert_eq.
Qed.

Lemma request_registry_witness :
  abortControllers (fst (request client0 "GET" "/x" JUndefined 7 t_count st_busy)) !! "GET-/x-7"
    = None
  /\ abortControllers (fst (request client_negative "GET" "/x" JUndefined 7 t_count st0))
       !! "GET-/x-7" = Some 0%nat.
Proof.
  split.
  - apply (proj1 (proj2 (request_registry client0 "GET" "/x" JUndefined 7 t_count st_busy)));
      [vm_compute; lia | discriminate].
  - apply (proj2 (proj2 (request_registry client_negative "GET" "/x" JUndefined 7 t_count st0))).
    left. reflexivity.
Defined.

Lemma request_fetches (cfg : RequiredConfig) (method endpoint : string) (body : jsval)
    (now : Z) (fetch : transport) (s s' : St) (r : js_result) :
  request cfg method endpoint body now fetch s = (s', r) ->
  exists t, trace s' = (trace s ++ t)%list
    /\ Forall (fun ev => match ev with
                         | EFetch _ u i => u = apiUrl cfg ++ endpoint
                                           /\ i = request_init cfg method body (next_ctrl s)
                         | EDelay _ => True
                         end) t.
Proof.
  intros Hr. destruct (request_shape cfg method endpoint body now fetch s) as (ds & Ht & _).
  rewrite Hr in Ht. cbn [fst] in Ht. eexists. split; [exact Ht|]. apply attempts_trace_events.
Qed.

(** X14: every call of [fetch] made by [getWaitlyEntriesCount] is a GET to
    [apiUrl/api/waitlists/<id>/count] without body; for a valid email,
    every call made by [checkEmailExists] is a POST to [.../check] with
    body [{email: lower-cased}], and every call made by [createWaitlyEntry]
    is a POST to [.../entries] with the lower-cased email and the entry's
    referredByCode, utm and metadata. *)
Theorem public_ops_requests (cfg : RequiredConfig) (e : string) (entry : WaitlyEntry) (now : Z)
    (fetch : transport) (s : St) :
  (exists t, trace (fst (getWaitlyEntriesCount cfg now fetch s)) = (trace s ++ t)%list
     /\ Forall (fun ev => match ev with
                          | EFetch _ u i => u = apiUrl cfg ++ "/api/waitlists/" ++ waitlistId cfg ++ "/count"
                                            /\ ri_method i = "GET" /\ ri_body i = None
                          | EDelay _ => True
                          end) t)
  /\ (isValidEmail e = true ->
      exists t, trace (fst (checkEmailExists cfg e now fetch s)) = (trace s ++ t)%list
     /\ Forall (fun ev => match ev with
                          | EFetch _ u i => u = apiUrl cfg ++ "/api/waitlists/" ++ waitlistId cfg ++ "/check"
                                            /\ ri_method i = "POST"
                                            /\ ri_body i = Some (JObject [("email", JString (toLowerCase e))])
                          | EDelay _ => True
                          end) t)
  /\ (email entry = Some e -> isValidEmail e = true ->
      exists t, trace (fst (createWaitlyEntry cfg entry now fetch s)) = (trace s ++ t)%list
     /\ Forall (fun ev => match ev with
                          | EFetch _ u i => u = apiUrl cfg ++ "/api/waitlists/" ++ waitlistId cfg ++ "/entries"
                                            /\ ri_method i = "POST"
                                            /\ ri_body i = Some (JObject [("email", JString (toLowerCase e));
                                                 ("referredByCode", opt_string (referredByCode entry));
                                                 ("utm", utm entry); ("metadata", metadata entry)])
                          | EDelay _ => True
                          end) t).
Proof.
  split; [|split].
  - unfold getWaitlyEntriesCount.
    destruct (request cfg "GET" _ JUndefined now fetch s) as [s' r] eqn:Hr.
    destruct (request_fetches _ _ _ _ _ _ _ _ _ Hr) as (t & Ht & Hf).
    exists t. split; [exact Ht|]. eapply Forall_impl; [exact Hf|].
    intros [a u i|d]; [|auto]. intros [-> ->]. repeat split.
  - intros Hv. unfold checkEmailExists. rewrite Hv. cbn [negb].
    rewrite (proj1 (valid_email_normalised e Hv)).
    destruct (request cfg "POST" _ _ now fetch s) as [s' r] eqn:Hr.
    destruct (request_fetches _ _ _ _ _ _ _ _ _ Hr) as (t & Ht & Hf).
    exists t. split; [exact Ht|]. eapply Forall_impl; [exact Hf|].
    intros [a u i|d]; [|auto]. intros [-> ->]. repeat split.
  - intros He Hv. unfold createWaitlyEntry.
    rewrite He. unfold opt_str_falsy, str_or. rewrite (isValidEmail_nonempty e Hv), Hv. cbn [negb].
    rewrite (proj1 (valid_email_normalised e Hv)).
    destruct (request cfg "POST" _ _ now fetch s) as [s' r] eqn:Hr.
    destruct (request_fetches _ _ _ _ _ _ _ _ _ Hr) as (t & Ht & Hf).
    exists t. split; [exact Ht|]. eapply Forall_impl; [exact Hf|].
    intros [a u i|d]; [|auto]. intros [-> ->]. repeat split.
Qed.

Lemma public_ops_requests_witness :
  exists t, trace (fst (checkEmailExists client0 "User@Example.com" 7 t500_500_ok st0))
              = (trace st0 ++ t)%list
     /\ Forall (fun ev => match ev with
                          | EFetch _ u i => u = apiUrl client0 ++ "/api/waitlists/" ++ waitlistId client0 ++ "/check"
                                            /\ ri_method i = "POST"
                                            /\ ri_body i = Some (JObject [("email", JString (toLowerCase "User@Example.com"))])
                          | EDelay _ => True
                          end) t.
Proof.
  apply (proj1 (proj2 (public_ops_requests client0 "User@Example.com" entry0 7 t500_500_ok st0))).
  reflexivity.
Defined.

